(** * RSS aggregation core of the Persian sports-news bot

    A shallow embedding of [rss_parser.py] (class [RSSParser]) and the
    properties of its text normaliser, date formatter, feed fetcher and
    aggregator.

    Conventions of the embedding:
    - a Python [str] is the list of its Unicode code points ([pystr]);
    - a Python [int] is a [Z];
    - a news item (a dict with six fixed keys) is a record;
    - code that can raise returns a [result]; [try]/[except] is
      [try_except];
    - the network, the feed parser, the RFC-2822 date parser and the Unicode
      lower-casing table are not part of the repository: they are the fields
      of a [World], fixed during one aggregation call;
    - logging is not modelled. *)

From Stdlib Require Import String Ascii.
From Stdlib Require Import List ZArith NArith Lia Bool.
From Stdlib Require Import Permutation Sorted.
From Stdlib Require DecimalPos DecimalN.
Import ListNotations.

Set Implicit Arguments.

(* ================================================================== *)
(** * Python values *)

Module Py.

(** ** Strings *)

Definition char := N.
Definition pystr := list char.

(** An ASCII literal as a Python string. *)
Definition ustr (s : string) : pystr :=
  map N_of_ascii (list_ascii_of_string s).

Definition char_eqb (a b : char) : bool := N.eqb a b.

Fixpoint str_eqb (a b : pystr) : bool :=
  match a, b with
  | [], [] => true
  | x :: a', y :: b' => char_eqb x y && str_eqb a' b'
  | _, _ => false
  end.

(** [bool(s)] for a string or a list: non-empty. *)
Definition truthy {A} (l : list A) : bool :=
  match l with [] => false | _ :: _ => true end.

(** [str.isspace] on one code point, the set [str.split()] and
    [str.strip()] use. *)
Definition isspace (c : char) : bool :=
  ((9 <=? c) && (c <=? 13) || (28 <=? c) && (c <=? 32)
   || (c =? 133) || (c =? 160) || (c =? 5760)
   || (8192 <=? c) && (c <=? 8202)
   || (c =? 8232) || (c =? 8233) || (c =? 8239) || (c =? 8287)
   || (c =? 12288))%N.

(** [s.replace(old, new)] for one-character [old] and [new]. *)
Definition replace_char (old new : char) (s : pystr) : pystr :=
  map (fun c => if char_eqb c old then new else c) s.

(** [s.split()]: the maximal runs of non-whitespace characters.  [words]
    scans from the right and returns the run the scan is in and the runs
    already closed. *)
Definition push_word (w : pystr) (ws : list pystr) : list pystr :=
  match w with [] => ws | _ :: _ => w :: ws end.

Fixpoint words (s : pystr) : pystr * list pystr :=
  match s with
  | [] => ([], [])
  | c :: s' =>
      let (w, ws) := words s' in
      if isspace c then ([], push_word w ws) else (c :: w, ws)
  end.

Definition split (s : pystr) : list pystr :=
  let (w, ws) := words s in push_word w ws.

(** [sep.join(ws)] *)
Fixpoint join (sep : pystr) (ws : list pystr) : pystr :=
  match ws with
  | [] => []
  | [w] => w
  | w :: ws' => w ++ sep ++ join sep ws'
  end.

Fixpoint lstrip (s : pystr) : pystr :=
  match s with
  | [] => []
  | c :: s' => if isspace c then lstrip s' else s
  end.

Definition rstrip (s : pystr) : pystr := rev (lstrip (rev s)).

(** [s.strip()] *)
Definition strip (s : pystr) : pystr := rstrip (lstrip s).

(** [needle in hay] for strings. *)
Fixpoint starts_with (needle hay : pystr) : bool :=
  match needle, hay with
  | [], _ => true
  | _ :: _, [] => false
  | x :: n', y :: h' => char_eqb x y && starts_with n' h'
  end.

Fixpoint str_in (needle hay : pystr) : bool :=
  starts_with needle hay
  || match hay with
     | [] => false
     | _ :: h' => str_in needle h'
     end.

(** ** Integers as text *)

Fixpoint digits (u : Decimal.uint) : pystr :=
  match u with
  | Decimal.Nil => []
  | Decimal.D0 u' => 48%N :: digits u'
  | Decimal.D1 u' => 49%N :: digits u'
  | Decimal.D2 u' => 50%N :: digits u'
  | Decimal.D3 u' => 51%N :: digits u'
  | Decimal.D4 u' => 52%N :: digits u'
  | Decimal.D5 u' => 53%N :: digits u'
  | Decimal.D6 u' => 54%N :: digits u'
  | Decimal.D7 u' => 55%N :: digits u'
  | Decimal.D8 u' => 56%N :: digits u'
  | Decimal.D9 u' => 57%N :: digits u'
  end.

Definition minus_sign : char := 45%N.

(** [str(z)], also what an f-string prints for [{z}]. *)
Definition str_of_int (z : Z) : pystr :=
  if (z <? 0)%Z then minus_sign :: digits (N.to_uint (Z.to_N (- z)))
  else digits (N.to_uint (Z.to_N z)).

Definition zero_pad (width : nat) (s : pystr) : pystr :=
  repeat 48%N (width - length s) ++ s.

(** [f"{z:02d}"]: zero padding to width two, after the sign. *)
Definition format_02d (z : Z) : pystr :=
  if (z <? 0)%Z
  then minus_sign :: zero_pad 1 (digits (N.to_uint (Z.to_N (- z))))
  else zero_pad 2 (digits (N.to_uint (Z.to_N z))).

(** ** Lists *)

(** [l[:n]]: a negative [n] counts from the end. *)
Definition slice_to {A} (n : Z) (l : list A) : list A :=
  if (n <? 0)%Z
  then firstn (Z.to_nat (Z.of_nat (length l) + n)) l
  else firstn (Z.to_nat n) l.

(** ** Exceptions *)

Inductive exn : Type :=
| TimeoutError          (* asyncio.TimeoutError *)
| IndexError
| ValueError
| TypeError
| ClientError           (* aiohttp.ClientError and its subclasses *)
| OtherException.       (* any other subclass of Exception *)

Inductive result (A : Type) : Type :=
| Ok (a : A)
| Raise (e : exn).
Arguments Ok {A} a.
Arguments Raise {A} e.

Definition bind {A B} (m : result A) (k : A -> result B) : result B :=
  match m with
  | Ok a => k a
  | Raise e => Raise e
  end.

(** [try: body / except ...: handler] *)
Definition try_except {A} (body : result A) (handler : exn -> result A)
  : result A :=
  match body with
  | Ok a => Ok a
  | Raise e => handler e
  end.

(** [l[i]]: a negative index counts from the end, an index out of range
    raises [IndexError]. *)
Definition getitem {A} (l : list A) (i : Z) : result A :=
  let j := if (i <? 0)%Z then (Z.of_nat (length l) + i)%Z else i in
  if (j <? 0)%Z then Raise IndexError
  else match nth_error l (Z.to_nat j) with
       | Some a => Ok a
       | None => Raise IndexError
       end.

(** [d.get(key, default)] on an optional field. *)
Definition get {A} (field : option A) (default : A) : A :=
  match field with
  | Some a => a
  | None => default
  end.

(** ** Tuples of integers *)

(** [a < b] on tuples: the first difference decides, a proper prefix is
    smaller. *)
Fixpoint tuple_ltb (a b : list Z) : bool :=
  match a, b with
  | [], [] => false
  | [], _ :: _ => true
  | _ :: _, [] => false
  | x :: a', y :: b' =>
      if (x <? y)%Z then true
      else if (y <? x)%Z then false
      else tuple_ltb a' b'
  end.

(** ** [list.sort(key=..., reverse=...)]

    The sort is stable and compares keys with [<] only.  With
    [reverse=True] the list is reversed, sorted ascending and reversed
    again, which keeps equal keys in their original order. *)
Section Sort.
Variables (A K : Type) (key : A -> K) (ltb : K -> K -> bool).

Fixpoint insert (x : A) (l : list A) : list A :=
  match l with
  | [] => [x]
  | y :: l' =>
      if ltb (key y) (key x) then y :: insert x l' else x :: y :: l'
  end.

Definition sort_ascending (l : list A) : list A :=
  fold_right insert [] l.

Definition list_sort (reverse : bool) (l : list A) : list A :=
  if reverse then rev (sort_ascending (rev l)) else sort_ascending l.
End Sort.

(** The same sort for keys whose [<] may raise, as [None < x] does: the
    exception of a comparison ends the sort and leaves it.  In a list of
    two or more items every item takes part in a comparison. *)
Section SortRaising.
Variables (A K : Type) (key : A -> K) (lt : K -> K -> result bool).

Fixpoint insert_raising (x : A) (l : list A) : result (list A) :=
  match l with
  | [] => Ok [x]
  | y :: l' =>
      bind (lt (key y) (key x))
           (fun below =>
              if below
              then bind (insert_raising x l') (fun l'' => Ok (y :: l''))
              else Ok (x :: y :: l'))
  end.

Fixpoint sort_ascending_raising (l : list A) : result (list A) :=
  match l with
  | [] => Ok []
  | x :: l' => bind (sort_ascending_raising l') (insert_raising x)
  end.

Definition list_sort_raising (reverse : bool) (l : list A)
  : result (list A) :=
  if reverse
  then bind (sort_ascending_raising (rev l)) (fun l' => Ok (rev l'))
  else sort_ascending_raising l.
End SortRaising.

End Py.

Import Py.

Declare Scope py_scope.
Notation "x <- m ;; k" := (bind m (fun x => k))
  (at level 61, m at next level, right associativity) : py_scope.
Open Scope py_scope.

(* ================================================================== *)
(** * Text normaliser: [_clean_text] *)

Module Regex.

Definition LT : char := 60%N.   (* '<' *)
Definition GT : char := 62%N.   (* '>' *)

(** The rest of a match of [[^<]*?>]: characters other than '<' are
    consumed lazily up to the first '>'.  Returns what follows the
    match. *)
Fixpoint lazy_close (s : pystr) : option pystr :=
  match s with
  | [] => None
  | c :: s' =>
      if char_eqb c GT then Some s'
      else if char_eqb c LT then None
      else lazy_close s'
  end.

(** A match of [<[^<]+?>] at the start of [s]: '<', one character that is
    not '<' (it may be '>'), then [lazy_close]. *)
Definition match_tag (s : pystr) : option pystr :=
  match s with
  | c0 :: c1 :: s' =>
      if char_eqb c0 LT && negb (char_eqb c1 LT) then lazy_close s'
      else None
  | _ => None
  end.

(** [re.sub('<[^<]+?>', '', s)]: one left-to-right pass; a match is
    dropped and the scan resumes after it, otherwise one character is
    copied.  A match is shorter than the text it is found in, so
    [length s] steps are enough. *)
Fixpoint sub_tags_fuel (fuel : nat) (s : pystr) : pystr :=
  match fuel with
  | O => []
  | S fuel' =>
      match s with
      | [] => []
      | c :: s' =>
          match match_tag s with
          | Some rest => sub_tags_fuel fuel' rest
          | None => c :: sub_tags_fuel fuel' s'
          end
      end
  end.

Definition sub_tags (s : pystr) : pystr := sub_tags_fuel (length s) s.

End Regex.

Definition ARABIC_YEH : char := 1610%N.   (* 'ي' *)
Definition FARSI_YEH : char := 1740%N.    (* 'ی' *)
Definition ARABIC_KAF : char := 1603%N.   (* 'ك' *)
Definition KEHEH : char := 1705%N.        (* 'ک' *)
Definition SPACE : char := 32%N.

Definition _clean_text (text : pystr) : pystr :=
  if negb (truthy text) then []
  else
    let text := Regex.sub_tags text in
    let text := replace_char ARABIC_KAF KEHEH
                  (replace_char ARABIC_YEH FARSI_YEH text) in
    let text := join [SPACE] (split text) in
    strip text.

(* ================================================================== *)
(** * Data model *)

(** [time.struct_time]: a 9-tuple of integers, compared as a tuple. *)
Record struct_time : Type := mk_struct_time {
  tm_year : Z; tm_mon : Z; tm_mday : Z;
  tm_hour : Z; tm_min : Z; tm_sec : Z;
  tm_wday : Z; tm_yday : Z; tm_isdst : Z
}.

Definition as_tuple (t : struct_time) : list Z :=
  [tm_year t; tm_mon t; tm_mday t; tm_hour t; tm_min t; tm_sec t;
   tm_wday t; tm_yday t; tm_isdst t].

Definition time_ltb (a b : struct_time) : bool :=
  tuple_ltb (as_tuple a) (as_tuple b).

Definition time_eqb (a b : struct_time) : bool :=
  forallb (fun p => Z.eqb (fst p) (snd p)) (combine (as_tuple a) (as_tuple b)).

(** [datetime.min.timetuple()]: 1 January of year 1, a Monday. *)
Definition datetime_min_timetuple : struct_time :=
  mk_struct_time 1 1 1 0 0 0 0 1 (-1).

(** [a < b] on values that are a [struct_time] or [None]: comparing with
    [None] raises [TypeError]. *)
Definition time_lt (a b : option struct_time) : result bool :=
  match a, b with
  | Some a, Some b => Ok (time_ltb a b)
  | _, _ => Raise TypeError
  end.

(** The fields of a [datetime] that [_format_date] reads. *)
Record datetime : Type := mk_datetime {
  year : Z; month : Z; day : Z; hour : Z; minute : Z
}.

(** One entry of a parsed feed; [None] is an absent key.  The feed parser
    stores [published_parsed] also for a date it could not read, with the
    value [None]: [Some None] here. *)
Record Entry : Type := mk_entry {
  entry_title : option pystr;
  entry_summary : option pystr;
  entry_description : option pystr;
  entry_link : option pystr;
  entry_published : option pystr;
  entry_published_parsed : option (option struct_time)
}.

(** What [feedparser.parse] returns. *)
Record Feed : Type := mk_feed {
  bozo : bool;
  entries : list Entry
}.

(** What [session.get] yields: the status and the outcome of
    [await response.text()]. *)
Record Response : Type := mk_response {
  status : Z;
  text : result pystr
}.

(** The news item the fetcher builds: the six keys of the dict.
    [published_parsed] is a [struct_time] or [None]. *)
Record NewsItem : Type := mk_news_item {
  title : pystr;
  description : pystr;
  link : pystr;
  published : pystr;
  published_parsed : option struct_time;
  source : pystr
}.

(** The collaborators outside the repository, fixed during a call. *)
Record World : Type := mk_world {
  (** [await session.get(url, timeout=...)]: a response, or the exception
      raised (timeout, connection error, ...). *)
  session_get : pystr -> result Response;
  (** [feedparser.parse(content)] *)
  feedparser_parse : pystr -> result Feed;
  (** [email.utils.parsedate_to_datetime]: raises, or returns a datetime
      ([None] stands for a falsy return value). *)
  parsedate_to_datetime : pystr -> result (option datetime);
  (** [str.lower] *)
  lower : pystr -> pystr
}.

(* ================================================================== *)
(** * Static configuration *)

(** [self.rss_feeds], in insertion order. *)
Definition rss_feeds : list (pystr * pystr) :=
  [ (ustr "varzesh3", ustr "https://www.varzesh3.com/rss/all");
    (ustr "tarafdari", ustr "https://www.tarafdari.com/rss/all");
    (ustr "footballi", ustr "https://footballi.net/rss/news");
    (ustr "metafootball", ustr "https://metafootball.com/fa/news/feed");
    (ustr "khabarvarzeshi", ustr "https://www.khabarvarzeshi.com/rss") ].

Definition ESTEGHLAL : pystr :=              (* 'استقلال' *)
  [1575; 1587; 1578; 1602; 1604; 1575; 1604]%N.

Definition football_keywords : list pystr :=
  [ [1601; 1608; 1578; 1576; 1575; 1604];                     (* فوتبال *)
    [1662; 1585; 1587; 1662; 1608; 1604; 1740; 1587];         (* پرسپولیس *)
    ESTEGHLAL;                                                (* استقلال *)
    [1578; 1740; 1605; 32; 1605; 1604; 1740];                 (* تیم ملی *)
    [1604; 1740; 1711; 32; 1576; 1585; 1578; 1585];           (* لیگ برتر *)
    [1580; 1575; 1605; 32; 1580; 1607; 1575; 1606; 1740]      (* جام جهانی *)
  ]%N.

(** [self.category_keywords] *)
Definition category_keywords : list (pystr * list pystr) :=
  [ (ustr "football", football_keywords);
    (ustr "basketball",
      [ [1576; 1587; 1705; 1578; 1576; 1575; 1604];           (* بسکتبال *)
        [1587; 1608; 1662; 1585; 1604; 1740; 1711; 32;
         1576; 1587; 1705; 1578; 1576; 1575; 1604] ]%N);      (* سوپرلیگ بسکتبال *)
    (ustr "wrestling",
      [ [1705; 1588; 1578; 1740];                             (* کشتی *)
        [1585; 1586; 1605; 1740];                             (* رزمی *)
        [1580; 1608; 1583; 1608];                             (* جودو *)
        [1705; 1575; 1585; 1575; 1578; 1607];                 (* کاراته *)
        [1578; 1705; 1608; 1575; 1606; 1583; 1608] ]%N);      (* تکواندو *)
    (ustr "volleyball",
      [ [1608; 1575; 1604; 1740; 1576; 1575; 1604];           (* والیبال *)
        [1587; 1575; 1740; 1662; 1575];                       (* سایپا *)
        [1705; 1575; 1604; 1575; 1740; 32;
         1582; 1608; 1583; 1585; 1608] ]%N);                  (* کالای خودرو *)
    (ustr "athletics",
      [ [1583; 1608; 32; 1608; 32; 1605; 1740; 1583; 1575; 1606; 1740];
                                                              (* دو و میدانی *)
        [1583; 1608; 1605; 1740; 1583; 1575; 1606; 1740];     (* دومیدانی *)
        [1583; 1608; 1608; 1605; 1740; 1583; 1575; 1606; 1740];
                                                              (* دوومیدانی *)
        [1575; 1604; 1605; 1662; 1740; 1705] ]%N) ].          (* المپیک *)

(** [d.get(k)] / [k in d] on a dict kept as an association list. *)
Fixpoint dict_lookup {V} (k : pystr) (d : list (pystr * V)) : option V :=
  match d with
  | [] => None
  | (k', v) :: d' => if str_eqb k k' then Some v else dict_lookup k d'
  end.

Definition NO_TITLE : pystr :=               (* 'بدون عنوان' *)
  [1576; 1583; 1608; 1606; 32; 1593; 1606; 1608; 1575; 1606]%N.

Definition DATE_UNKNOWN : pystr :=           (* 'تاریخ نامشخص' *)
  [1578; 1575; 1585; 1740; 1582; 32; 1606; 1575; 1605; 1588; 1582; 1589]%N.

Definition persian_months : list pystr :=
  [ [1688; 1575; 1606; 1608; 1740; 1607];          (* ژانویه *)
    [1601; 1608; 1585; 1740; 1607];                (* فوریه *)
    [1605; 1575; 1585; 1587];                      (* مارس *)
    [1570; 1662; 1585; 1740; 1604];                (* آپریل *)
    [1605; 1607];                                  (* مه *)
    [1688; 1608; 1574; 1606];                      (* ژوئن *)
    [1688; 1608; 1574; 1740; 1607];                (* ژوئیه *)
    [1570; 1711; 1608; 1587; 1578];                (* آگوست *)
    [1587; 1662; 1578; 1575; 1605; 1576; 1585];    (* سپتامبر *)
    [1575; 1705; 1578; 1576; 1585];                (* اکتبر *)
    [1606; 1608; 1575; 1605; 1576; 1585];          (* نوامبر *)
    [1583; 1587; 1575; 1605; 1576; 1585] ]%N.      (* دسامبر *)

(* ================================================================== *)
(** * The parser, in a fixed world *)

Section RSSParser.

Variable w : World.

(** ** Date formatter *)

Definition _format_date (date_str : pystr) : result pystr :=
  try_except
    (if negb (truthy date_str) then Ok DATE_UNKNOWN
     else
       inner <-
         try_except
           (dt <- parsedate_to_datetime w date_str ;;
            match dt with
            | Some dt =>
                month_name <- getitem persian_months (month dt - 1) ;;
                let persian_date :=
                  str_of_int (day dt) ++ [SPACE] ++ month_name
                    ++ [SPACE] ++ str_of_int (year dt) in
                let persian_time :=
                  format_02d (hour dt) ++ ustr ":" ++ format_02d (minute dt) in
                Ok (Some (persian_date ++ ustr " - " ++ persian_time))
            | None => Ok None
            end)
           (fun _ => Ok None) ;;                       (* except: pass *)
       match inner with
       | Some formatted => Ok formatted
       | None => Ok date_str
       end)
    (fun _ => Ok DATE_UNKNOWN).

(** ** Feed fetcher *)

(** The body of the per-entry [try]: the dict is built, then [None]
    stands for the [continue] on a missing essential field. *)
Definition build_item (source_name : pystr) (entry : Entry)
  : result (option NewsItem) :=
  formatted <- _format_date (get (entry_published entry) []) ;;
  let news_item :=
    {| title := _clean_text (get (entry_title entry) NO_TITLE);
       description :=
         _clean_text (get (entry_summary entry)
                          (get (entry_description entry) []));
       link := get (entry_link entry) [];
       published := formatted;
       published_parsed :=
         get (entry_published_parsed entry) (Some datetime_min_timetuple);
       source := source_name |} in
  (* Skip if essential fields are missing *)
  if negb (truthy (title news_item)) || negb (truthy (link news_item))
  then Ok None
  else Ok (Some news_item).

(** [for entry in ...: try: ... except Exception: continue] *)
Fixpoint entries_loop (source_name : pystr) (es : list Entry)
    (news_items : list NewsItem) : list NewsItem :=
  match es with
  | [] => news_items
  | entry :: es' =>
      match build_item source_name entry with
      | Ok (Some news_item) =>
          entries_loop source_name es' (news_items ++ [news_item])
      | Ok None => entries_loop source_name es' news_items
      | Raise _ => entries_loop source_name es' news_items
      end
  end.

Definition _fetch_feed (source_name feed_url : pystr)
  : result (list NewsItem) :=
  try_except
    (response <- session_get w feed_url ;;
     if negb (status response =? 200)%Z then Ok []
     else
       content <- text response ;;
       feed <- feedparser_parse w content ;;
       (* feed.bozo only adds a line to the log *)
       Ok (entries_loop source_name (slice_to 10 (entries feed)) []))
    (fun e =>
       match e with
       | TimeoutError => Ok []
       | _ => Ok []
       end).

(** ** Aggregator *)

(** [asyncio.gather] with [return_exceptions=True]: results in task
    order, an exception raised by a task becomes its result. *)
Definition gather {A} (tasks : list (result A)) : list (A + exn) :=
  map (fun t => match t with Ok a => inl a | Raise e => inr e end) tasks.

Definition fetch_all : list (list NewsItem + exn) :=
  gather (map (fun feed => _fetch_feed (fst feed) (snd feed)) rss_feeds).

(** [for result in results: ...  all_news.extend(result)] *)
Fixpoint merge_results (results : list (list NewsItem + exn))
    (all_news : list NewsItem) : list NewsItem :=
  match results with
  | [] => all_news
  | inr _ :: rest => merge_results rest all_news
  | inl result :: rest =>
      if truthy result then merge_results rest (all_news ++ result)
      else merge_results rest all_news
  end.

(** [l.sort(key=lambda x: x.get('published_parsed', ...), reverse=True)]:
    every item has the key, so the key is its value, which may be [None];
    the sort raises [TypeError] when it compares [None]. *)
Definition sort_newest_first (l : list NewsItem) : result (list NewsItem) :=
  list_sort_raising published_parsed time_lt true l.

Definition get_latest_news (limit : Z) : result (list NewsItem) :=
  try_except
    (let all_news := merge_results fetch_all [] in
     all_news <- sort_newest_first all_news ;;
     Ok (slice_to limit all_news))
    (fun _ => Ok []).

(** [for item in all_news: if matches(item): acc.append(item);
     if len(acc) >= limit: break] *)
Fixpoint collect (matches : NewsItem -> bool) (limit : Z)
    (acc : list NewsItem) (all_news : list NewsItem) : list NewsItem :=
  match all_news with
  | [] => acc
  | news_item :: rest =>
      let acc := if matches news_item then acc ++ [news_item] else acc in
      if (Z.of_nat (length acc) >=? limit)%Z then acc
      else collect matches limit acc rest
  end.

(** [any(keyword in title or keyword in description for keyword in
    keywords)] on the lower-cased title and description. *)
Definition mentions_any (keywords : list pystr) (news_item : NewsItem)
  : bool :=
  let title := lower w (title news_item) in
  let description := lower w (description news_item) in
  existsb (fun keyword => str_in keyword title || str_in keyword description)
          keywords.

Definition get_news_by_category (category : pystr) (limit : Z)
  : result (list NewsItem) :=
  try_except
    (all_news <- get_latest_news (limit * 3) ;;
     match dict_lookup category category_keywords with
     | None => Ok (slice_to limit all_news)
     | Some keywords => Ok (collect (mentions_any keywords) limit [] all_news)
     end)
    (fun _ => Ok []).

Definition mentions_esteghlal (news_item : NewsItem) : bool :=
  let title := lower w (title news_item) in
  let description := lower w (description news_item) in
  str_in ESTEGHLAL title || str_in ESTEGHLAL description.

Definition get_esteghlal_news (limit : Z) : result (list NewsItem) :=
  try_except
    (let all_news := merge_results fetch_all [] in
     let esteghlal_news := collect mentions_esteghlal limit [] all_news in
     esteghlal_news <- sort_newest_first esteghlal_news ;;
     Ok (slice_to limit esteghlal_news))
    (fun _ => Ok []).

Definition get_all_news (limit : Z) : result (list NewsItem) :=
  get_latest_news limit.

End RSSParser.

(* ================================================================== *)
(** * Vocabulary of the properties *)

(** ** Order *)

Section Order.
Variables (A K : Type) (key : A -> K) (ltb : K -> K -> bool).

(** [x] may stand before [y] in an ascending list. *)
Definition ascending (x y : A) : Prop := ltb (key y) (key x) = false.
(** [x] may stand before [y] in a descending list. *)
Definition descending (x y : A) : Prop := ltb (key x) (key y) = false.

End Order.

(** The item has a parsed date. *)
Definition is_dated (item : NewsItem) : bool :=
  match published_parsed item with
  | Some _ => true
  | None => false
  end.

(** The date of a dated item. *)
Definition time_key (item : NewsItem) : struct_time :=
  get (published_parsed item) datetime_min_timetuple.

(** The items published at time [k]. *)
Definition published_at (k : struct_time) (item : NewsItem) : bool :=
  match published_parsed item with
  | Some t => time_eqb t k
  | None => false
  end.

(** [x] may stand before [y] in a newest-first list: both are dated and
    [x] is not older. *)
Definition newest_first (x y : NewsItem) : Prop :=
  exists a b,
    published_parsed x = Some a /\ published_parsed y = Some b /\
    time_ltb a b = false.

(** The stable newest-first order of a list: what the sort returns when no
    comparison raises. *)
Definition ranking (l : list NewsItem) : list NewsItem :=
  list_sort time_key time_ltb true l.

(** The sort of the list compares no [None]: the list has one item at
    most, or all its items are dated. *)
Definition comparable (l : list NewsItem) : bool :=
  (length l <=? 1) || forallb is_dated l.

(** What an operation goes on with after its sort: the ranking, or nothing
    when the sort raised. *)
Definition sorted_or_dropped (l : list NewsItem) : list NewsItem :=
  if comparable l then ranking l else [].

(** ** Text *)

Definition nonspace (c : char) : bool := negb (isspace c).

(** A word: non-empty, without whitespace. *)
Definition is_word (w : pystr) : bool := truthy w && forallb nonspace w.

(** Empty, or starting with a character that is not whitespace. *)
Definition starts_clean (s : pystr) : bool :=
  match s with
  | [] => true
  | c :: _ => nonspace c
  end.

Definition is_space (c : char) : bool := char_eqb c SPACE.

Fixpoint has_double_space (s : pystr) : bool :=
  match s with
  | [] => false
  | c :: s' =>
      match s' with
      | [] => false
      | d :: _ => is_space c && is_space d || has_double_space s'
      end
  end.

(** The two passes that follow tag removal. *)
Definition persian_letters (s : pystr) : pystr :=
  replace_char ARABIC_KAF KEHEH (replace_char ARABIC_YEH FARSI_YEH s).

(** [needle] occurs in [hay]. *)
Definition substring (needle hay : pystr) : Prop :=
  exists pre post, hay = pre ++ needle ++ post.

(** A tag is left in [s]: the pattern [<[^<]+?>] matches at some position
    of [s]. *)
Fixpoint has_tag (s : pystr) : bool :=
  match s with
  | [] => false
  | _ :: s' =>
      match Regex.match_tag s with
      | Some _ => true
      | None => has_tag s'
      end
  end.

(** ** Dates *)

(** The fields of a [datetime] object are in range. *)
Definition valid_datetime (dt : datetime) : Prop :=
  (1 <= year dt <= 9999 /\ 1 <= month dt <= 12 /\ 1 <= day dt <= 31 /\
   0 <= hour dt <= 23 /\ 0 <= minute dt <= 59)%Z.

(** ["<day> <month-name> <year> - <HH>:<MM>"] *)
Definition rendered (dt : datetime) (month_name : pystr) : pystr :=
  str_of_int (day dt) ++ [SPACE] ++ month_name ++ [SPACE]
  ++ str_of_int (year dt) ++ ustr " - "
  ++ format_02d (hour dt) ++ ustr ":" ++ format_02d (minute dt).

(** ** One aggregation call *)

Section Call.
Variable w : World.

(** The date shown for a raw date string. *)
Definition formatted_date (date_str : pystr) : pystr :=
  match _format_date w date_str with
  | Ok out => out
  | Raise _ => DATE_UNKNOWN
  end.

(** An entry that yields an item: a title that is non-empty once
    normalised and a non-empty link. *)
Definition entry_ok (entry : Entry) : bool :=
  truthy (_clean_text (get (entry_title entry) NO_TITLE))
  && truthy (get (entry_link entry) []).

(** The item built from an entry. *)
Definition item_of (source_name : pystr) (entry : Entry) : NewsItem :=
  {| title := _clean_text (get (entry_title entry) NO_TITLE);
     description :=
       _clean_text (get (entry_summary entry)
                        (get (entry_description entry) []));
     link := get (entry_link entry) [];
     published := formatted_date (get (entry_published entry) []);
     published_parsed :=
       get (entry_published_parsed entry) (Some datetime_min_timetuple);
     source := source_name |}.

(** What a source contributes: the items of the valid entries among the
    first ten, or nothing when the fetch fails. *)
Definition source_items (source_name feed_url : pystr) : list NewsItem :=
  match session_get w feed_url with
  | Raise _ => []
  | Ok response =>
      if (status response =? 200)%Z then
        match text response with
        | Raise _ => []
        | Ok content =>
            match feedparser_parse w content with
            | Raise _ => []
            | Ok feed =>
                map (item_of source_name)
                    (filter entry_ok (firstn 10 (entries feed)))
            end
        end
      else []
  end.

(** The merge of one call: the contributions of the sources, in the
    order of the configuration. *)
Definition merged : list NewsItem :=
  flat_map (fun feed => source_items (fst feed) (snd feed)) rss_feeds.

(** A source fails: the request raises (time-out, connection error), the
    status is not 200, reading the body raises, or parsing raises. *)
Definition source_fails (feed_url : pystr) : Prop :=
  match session_get w feed_url with
  | Raise _ => True
  | Ok response =>
      status response <> 200%Z \/
      match text response with
      | Raise _ => True
      | Ok content =>
          match feedparser_parse w content with
          | Raise _ => True
          | Ok _ => False
          end
      end
  end.

End Call.

(** ** Sample worlds *)

Module Sample.

(** Lower-casing of the ASCII letters, enough for the examples. *)
Definition ascii_lower (s : pystr) : pystr :=
  map (fun c => if (65 <=? c) && (c <=? 90) then c + 32 else c)%N s.

Definition noon : struct_time := mk_struct_time 2024 3 4 12 0 0 0 64 0.
Definition evening : struct_time := mk_struct_time 2024 3 4 19 30 0 0 64 0.

Definition rfc_date : pystr := ustr "Mon, 04 Mar 2024 09:05:00 +0000".

Definition derby : Entry :=
  mk_entry (Some (ESTEGHLAL ++ ustr "  <b>2-1</b>")) (Some (ustr "Derby"))
           None (Some (ustr "https://a/1")) (Some rfc_date)
         (Some (Some noon)).
Definition transfer : Entry :=
  mk_entry (Some (ustr "Transfer news")) None (Some (ustr "<p>rumours</p>"))
           (Some (ustr "https://a/2")) (Some (ustr "yesterday"))
         (Some (Some evening)).
(** Scenario B: a title and an empty link. *)
Definition linkless : Entry :=
  mk_entry (Some [1582; 1576; 1585]%N) None None (Some []) None
         (Some (Some evening)).
Definition undated : Entry :=
  mk_entry None None None (Some (ustr "https://b/1")) None None.
Definition cup : Entry :=
  mk_entry (Some (ustr "Cup draw")) (Some ESTEGHLAL) None
           (Some (ustr "https://b/2")) None (Some (Some evening)).

Definition feed_a : Feed := mk_feed false [derby; linkless; transfer].
Definition feed_b : Feed := mk_feed true [undated; cup].

(** Two sources answer, one answers 500, one times out, one cannot be
    reached. *)
Definition world : World :=
  {| session_get := fun url =>
       if str_eqb url (ustr "https://www.varzesh3.com/rss/all")
       then Ok (mk_response 200 (Ok (ustr "a")))
       else if str_eqb url (ustr "https://www.tarafdari.com/rss/all")
       then Ok (mk_response 500 (Ok (ustr "a")))
       else if str_eqb url (ustr "https://footballi.net/rss/news")
       then Raise TimeoutError
       else if str_eqb url (ustr "https://metafootball.com/fa/news/feed")
       then Ok (mk_response 200 (Ok (ustr "b")))
       else Raise ClientError;
     feedparser_parse := fun content =>
       if str_eqb content (ustr "a") then Ok feed_a else Ok feed_b;
     parsedate_to_datetime := fun s =>
       if str_eqb s rfc_date then Ok (Some (mk_datetime 2024 3 4 9 5))
       else Raise ValueError;
     lower := ascii_lower |}.

(** A date the feed parser could not read: the key is there, with the
    value [None]. *)
Definition unreadable : Entry :=
  mk_entry (Some (ESTEGHLAL ++ ustr " training")) None None
           (Some (ustr "https://c/1")) (Some (ustr "12 Esfand 1402"))
           (Some None).

(** One source answers, with a dated entry and one whose date could not be
    read; the others time out. *)
Definition world_with_unreadable_date : World :=
  {| session_get := fun url =>
       if str_eqb url (ustr "https://www.varzesh3.com/rss/all")
       then Ok (mk_response 200 (Ok (ustr "c")))
       else Raise TimeoutError;
     feedparser_parse := fun _ => Ok (mk_feed false [derby; unreadable]);
     parsedate_to_datetime := fun _ => Raise ValueError;
     lower := ascii_lower |}.

(** Every source times out. *)
Definition dead_world : World :=
  {| session_get := fun _ => Raise TimeoutError;
     feedparser_parse := fun _ => Raise ValueError;
     parsedate_to_datetime := fun _ => Raise ValueError;
     lower := ascii_lower |}.

End Sample.

(* ================================================================== *)
(** * Start-up configuration: [config.py] *)

(** The process environment and the built-ins the constructor calls. *)
Record Os : Type := mk_os {
  (** [os.getenv(name)]: [None] for a variable that is not set. *)
  getenv : pystr -> option pystr;
  (** [int(s)]: raises [ValueError] on a string that is no integer. *)
  int_of_str : pystr -> result Z;
  (** [str.upper] and [str.lower] *)
  str_upper : pystr -> pystr;
  str_lower : pystr -> pystr
}.

(** The attributes of a [Config] object.  The two credentials are what
    [os.getenv] returned. *)
Record Config : Type := mk_config {
  TELEGRAM_BOT_TOKEN : option pystr;
  OPENAI_API_KEY : option pystr;
  BOT_USERNAME : pystr;
  MAX_NEWS_PER_REQUEST : Z;
  CACHE_TIMEOUT : Z;
  FEED_REFRESH_INTERVAL : Z;
  REQUEST_TIMEOUT : Z;
  LOG_LEVEL : pystr;
  DEBUG_MODE : bool
}.

(** [not value] for a string that may be [None]. *)
Definition falsy (value : option pystr) : bool :=
  match value with
  | None => true
  | Some s => negb (truthy s)
  end.

(** [Config.__init__] *)
Definition Config_init (os : Os) : result Config :=
  let token := getenv os (ustr "TELEGRAM_BOT_TOKEN") in
  if falsy token then Raise ValueError
  else
    let api_key := getenv os (ustr "OPENAI_API_KEY") in
    if falsy api_key then Raise ValueError
    else
      let username :=
        get (getenv os (ustr "BOT_USERNAME")) (ustr "persian_sports_bot") in
      max_news <-
        int_of_str os (get (getenv os (ustr "MAX_NEWS_PER_REQUEST")) (ustr "5")) ;;
      cache_timeout <-
        int_of_str os (get (getenv os (ustr "CACHE_TIMEOUT")) (ustr "300")) ;;
      refresh <-
        int_of_str os
          (get (getenv os (ustr "FEED_REFRESH_INTERVAL")) (ustr "600")) ;;
      request_timeout <-
        int_of_str os (get (getenv os (ustr "REQUEST_TIMEOUT")) (ustr "10")) ;;
      let log_level :=
        str_upper os (get (getenv os (ustr "LOG_LEVEL")) (ustr "INFO")) in
      let debug :=
        str_eqb (str_lower os (get (getenv os (ustr "DEBUG_MODE")) (ustr "False")))
                (ustr "true") in
      Ok (mk_config token api_key username max_news cache_timeout refresh
                    request_timeout log_level debug).

(** The names [validate_config] checks, with [getattr(self, name)]. *)
Definition required_vars : list (pystr * (Config -> option pystr)) :=
  [ (ustr "TELEGRAM_BOT_TOKEN", TELEGRAM_BOT_TOKEN);
    (ustr "OPENAI_API_KEY", OPENAI_API_KEY) ].

(** [for var in required_vars: if not getattr(self, var):
     missing_vars.append(var)] *)
Fixpoint missing_vars_loop (self : Config)
    (vars : list (pystr * (Config -> option pystr)))
    (missing_vars : list pystr) : list pystr :=
  match vars with
  | [] => missing_vars
  | (var, getattr) :: rest =>
      if falsy (getattr self)
      then missing_vars_loop self rest (missing_vars ++ [var])
      else missing_vars_loop self rest missing_vars
  end.

Definition validate_config (self : Config) : result bool :=
  let missing_vars := missing_vars_loop self required_vars [] in
  if truthy missing_vars then Raise ValueError else Ok true.

(** What [RSSParser.__init__] stores in the object. *)
Record RSSParser : Type := mk_rss_parser {
  parser_config : Config;
  parser_rss_feeds : list (pystr * pystr);
  parser_category_keywords : list (pystr * list pystr)
}.

(** [RSSParser.__init__] *)
Definition RSSParser_init (os : Os) : result RSSParser :=
  config <- Config_init os ;;
  Ok (mk_rss_parser config rss_feeds category_keywords).

(* ================================================================== *)
(** * The chat layer: [bot.py] *)

(** ** Full article text *)

(** What [requests.get] returns. *)
Record HttpResponse : Type := mk_http_response {
  status_code : Z;
  response_text : pystr
}.

(** The web and the HTML parser. *)
Record Web : Type := mk_web {
  (** [requests.get(url, timeout=10)] *)
  requests_get : pystr -> result HttpResponse;
  (** [p.get_text()] for the [p] of
      [BeautifulSoup(html, "html.parser").find_all("p")] *)
  find_all_p : pystr -> result (list pystr)
}.

(** [response.raise_for_status()]: [HTTPError] for a 4xx or 5xx status. *)
Definition raise_for_status (response : HttpResponse) : result unit :=
  if ((400 <=? status_code response) && (status_code response <? 600))%Z
  then Raise OtherException
  else Ok tt.

Definition ARTICLE_UNAVAILABLE : pystr :=
  (* 'متأسفانه متن کامل خبر قابل دریافت نیست.' *)
  [1605; 1578; 1571; 1587; 1601; 1575; 1606; 1607; 32; 1605; 1578; 1606;
   32; 1705; 1575; 1605; 1604; 32; 1582; 1576; 1585; 32; 1602; 1575;
   1576; 1604; 32; 1583; 1585; 1740; 1575; 1601; 1578; 32; 1606; 1740;
   1587; 1578; 46]%N.

Definition NEWLINE : char := 10%N.

Definition fetch_full_article (web : Web) (url : pystr) : result pystr :=
  try_except
    (response <- requests_get web url ;;
     _ <- raise_for_status response ;;
     paragraphs <- find_all_p web (response_text response) ;;
     let text :=
       join [NEWLINE; NEWLINE]
         (map strip
            (filter (fun p => (30 <? Z.of_nat (length (strip p)))%Z)
                    paragraphs)) in
     Ok (if truthy text then slice_to 3000 text else ARTICLE_UNAVAILABLE))
    (fun _ => Ok ARTICLE_UNAVAILABLE).

(** ** Handlers *)

(** A message sent with [reply_text]: its text and, when there is a
    keyboard, the label and the callback data of its one button. *)
Record Message : Type := mk_message {
  message_text : pystr;
  reply_markup : option (pystr * pystr)
}.

(** What the handlers read and change: [context.user_data] and the
    messages sent to the chat so far. *)
Record Chat : Type := mk_chat {
  user_data : list (pystr * pystr);
  sent : list Message
}.

(** The Telegram API: whether [query.answer()] raises, and whether
    [reply_text] raises, given what was sent before. *)
Record Telegram : Type := mk_telegram {
  answer : option exn;
  reply : list Message -> Message -> option exn
}.

(** A handler step: it may raise, and it leaves a chat state either way. *)
Definition Handler (A : Type) : Type := Chat -> result A * Chat.

Definition h_ret {A} (a : A) : Handler A := fun c => (Ok a, c).

Definition h_bind {A B} (m : Handler A) (k : A -> Handler B) : Handler B :=
  fun c =>
    match m c with
    | (Ok a, c') => k a c'
    | (Raise e, c') => (Raise e, c')
    end.

Definition h_try {A} (body : Handler A) (handler : exn -> Handler A)
  : Handler A :=
  fun c =>
    match body c with
    | (Ok a, c') => (Ok a, c')
    | (Raise e, c') => handler e c'
    end.

(** A call that does not touch the chat. *)
Definition h_lift {A} (r : result A) : Handler A := fun c => (r, c).

Notation "x <~ m ;; k" := (h_bind m (fun x => k))
  (at level 61, m at next level, right associativity) : py_scope.

(** [await query.answer()] *)
Definition query_answer (tg : Telegram) : Handler unit :=
  fun c =>
    match answer tg with
    | None => (Ok tt, c)
    | Some e => (Raise e, c)
    end.

(** [await query.message.reply_text(text, reply_markup=...)]; a call that
    raises is taken to have sent nothing. *)
Definition reply_text (tg : Telegram) (text : pystr)
    (markup : option (pystr * pystr)) : Handler unit :=
  fun c =>
    let message := mk_message text markup in
    match reply tg (sent c) message with
    | None => (Ok tt, mk_chat (user_data c) (sent c ++ [message]))
    | Some e => (Raise e, c)
    end.

(** [d[k] = v] on a dict kept as an association list. *)
Fixpoint dict_set {V} (k : pystr) (v : V) (d : list (pystr * V))
  : list (pystr * V) :=
  match d with
  | [] => [(k, v)]
  | (k', v') :: d' =>
      if str_eqb k k' then (k, v) :: d' else (k', v') :: dict_set k v d'
  end.

(** [context.user_data[key] = value] *)
Definition set_user_data (key value : pystr) : Handler unit :=
  fun c => (Ok tt, mk_chat (dict_set key value (user_data c)) (sent c)).

(** [context.user_data.get(key)] *)
Definition get_user_data (key : pystr) : Handler (option pystr) :=
  fun c => (Ok (dict_lookup key (user_data c)), c).

Definition NO_NEWS : pystr :=            (* 'در حال حاضر خبری در دسترس نیست.' *)
  [1583; 1585; 32; 1581; 1575; 1604; 32; 1581; 1575; 1590; 1585; 32;
   1582; 1576; 1585; 1740; 32; 1583; 1585; 32; 1583; 1587; 1578; 1585;
   1587; 32; 1606; 1740; 1587; 1578; 46]%N.

Definition READ_FULL_LABEL : pystr :=    (* '📖 نمایش متن کامل' *)
  [128214; 32; 1606; 1605; 1575; 1740; 1588; 32; 1605; 1578; 1606; 32;
   1705; 1575; 1605; 1604]%N.

Definition NEWS_ERROR : pystr :=
  (* 'خطا در دریافت اخبار. لطفاً دوباره تلاش کنید.' *)
  [1582; 1591; 1575; 32; 1583; 1585; 32; 1583; 1585; 1740; 1575; 1601;
   1578; 32; 1575; 1582; 1576; 1575; 1585; 46; 32; 1604; 1591; 1601;
   1575; 1611; 32; 1583; 1608; 1576; 1575; 1585; 1607; 32; 1578; 1604;
   1575; 1588; 32; 1705; 1606; 1740; 1583; 46]%N.

Definition LINK_NOT_FOUND : pystr :=     (* 'لینک خبر پیدا نشد.' *)
  [1604; 1740; 1606; 1705; 32; 1582; 1576; 1585; 32; 1662; 1740; 1583;
   1575; 32; 1606; 1588; 1583; 46]%N.

Definition FULL_TEXT_ERROR : pystr :=
  (* 'خطا در دریافت متن کامل. لطفاً دوباره تلاش کنید.' *)
  [1582; 1591; 1575; 32; 1583; 1585; 32; 1583; 1585; 1740; 1575; 1601;
   1578; 32; 1605; 1578; 1606; 32; 1705; 1575; 1605; 1604; 46; 32; 1604;
   1591; 1601; 1575; 1611; 32; 1583; 1608; 1576; 1575; 1585; 1607; 32;
   1578; 1604; 1575; 1588; 32; 1705; 1606; 1740; 1583; 46]%N.

Definition CHECK_MARK : char := 9989%N.  (* '✅' *)

(** [f"full_news_{idx}"] *)
Definition full_news_key (idx : Z) : pystr :=
  ustr "full_news_" ++ str_of_int idx.

(** [news.get('description', '')[:300] + '...' if
     len(news.get('description', '')) > 300 else
     news.get('description', '')] *)
Definition summary (news : NewsItem) : pystr :=
  if (300 <? Z.of_nat (length (description news)))%Z
  then slice_to 300 (description news) ++ ustr "..."
  else description news.

(** The message of one news item: the text
    [f"✅ {news['title']}\n\n{summary}\n\n{news['link']}"] and the button
    that asks for the full text. *)
Definition news_message (idx : Z) (news : NewsItem) : Message :=
  mk_message
    ([CHECK_MARK; SPACE] ++ title news ++ [NEWLINE; NEWLINE] ++ summary news
       ++ [NEWLINE; NEWLINE] ++ link news)
    (Some (READ_FULL_LABEL, full_news_key idx)).

(** [for idx, news in enumerate(news_list, start=idx): ...] *)
Fixpoint news_loop (tg : Telegram) (idx : Z) (news_list : list NewsItem)
  : Handler unit :=
  match news_list with
  | [] => h_ret tt
  | news :: rest =>
      let message := news_message idx news in
      _ <~ set_user_data (full_news_key idx) (link news) ;;
      _ <~ reply_text tg (message_text message) (reply_markup message) ;;
      news_loop tg (idx + 1) rest
  end.

Definition latest_news_handler (w : World) (tg : Telegram) : Handler unit :=
  _ <~ query_answer tg ;;
  h_try
    (news_list <~ h_lift (get_esteghlal_news w 5) ;;
     if negb (truthy news_list) then reply_text tg NO_NEWS None
     else news_loop tg 1 news_list)
    (fun _ => reply_text tg NEWS_ERROR None).

(** [data] is [query.data], the callback data of the pressed button. *)
Definition full_news_handler (web : Web) (tg : Telegram) (data : pystr)
  : Handler unit :=
  _ <~ query_answer tg ;;
  h_try
    (url <~ get_user_data data ;;
     if falsy url then reply_text tg LINK_NOT_FOUND None
     else
       full_text <~ h_lift (fetch_full_article web (get url [])) ;;
       reply_text tg full_text None)
    (fun _ => reply_text tg FULL_TEXT_ERROR None).

(** ** Vocabulary of the chat layer *)

(** [enumerate(l, start=idx)] *)
Fixpoint enumerate {A} (idx : Z) (l : list A) : list (Z * A) :=
  match l with
  | [] => []
  | x :: rest => (idx, x) :: enumerate (idx + 1) rest
  end.

(** Telegram accepts every call. *)
Definition telegram_works (tg : Telegram) : Prop :=
  answer tg = None /\ forall history message, reply tg history message = None.

Definition is_ascii_digit (c : char) : bool := ((48 <=? c) && (c <=? 57))%N.

Module SampleBot.

(** A page with one long paragraph and one short one. *)
Definition web : Web :=
  {| requests_get := fun url =>
       if str_eqb url (ustr "https://a/1")
       then Ok (mk_http_response 200 (ustr "page"))
       else Ok (mk_http_response 404 []);
     find_all_p := fun _ =>
       Ok [ustr "  A long paragraph about the derby of last night.  ";
           ustr "short"] |}.

Definition telegram : Telegram :=
  {| answer := None; reply := fun _ _ => None |}.

Definition empty_chat : Chat := mk_chat [] [].

(** Only the two credentials are set; [int] reads small literals. *)
Definition os : Os :=
  {| getenv := fun name =>
       if str_eqb name (ustr "TELEGRAM_BOT_TOKEN") then Some (ustr "123:abc")
       else if str_eqb name (ustr "OPENAI_API_KEY") then Some (ustr "sk-1")
       else None;
     int_of_str := fun s =>
       if str_eqb s (ustr "5") then Ok 5%Z
       else if str_eqb s (ustr "300") then Ok 300%Z
       else if str_eqb s (ustr "600") then Ok 600%Z
       else if str_eqb s (ustr "10") then Ok 10%Z
       else Raise ValueError;
     str_upper := fun s => s;
     str_lower := Sample.ascii_lower |}.

(** No credential is set. *)
Definition bare_os : Os :=
  {| getenv := fun _ => None;
     int_of_str := fun _ => Raise ValueError;
     str_upper := fun s => s;
     str_lower := Sample.ascii_lower |}.

End SampleBot.

(* ================================================================== *)
(** * Facts about the Python primitives *)

Unset Implicit Arguments.

(** ** Stable sorting *)

Section SortFacts.
Variables (A K : Type) (key : A -> K) (ltb : K -> K -> bool).

Lemma insert_perm (x : A) (l : list A) :
  Permutation (insert key ltb x l) (x :: l).
Proof.
  induction l as [|y l IH]; simpl; [reflexivity|].
  destruct (ltb (key y) (key x)); [|reflexivity].
  rewrite IH. apply perm_swap.
Qed.

Lemma sort_ascending_perm (l : list A) :
  Permutation (sort_ascending key ltb l) l.
Proof.
  induction l as [|x l IH]; simpl; [reflexivity|].
  rewrite insert_perm. now constructor.
Qed.

Lemma list_sort_perm (reverse : bool) (l : list A) :
  Permutation (list_sort key ltb reverse l) l.
Proof.
  destruct reverse; simpl; [|apply sort_ascending_perm].
  rewrite <- Permutation_rev, sort_ascending_perm.
  symmetry. apply Permutation_rev.
Qed.

(** Stability: the elements picked by a predicate whose members are never
    strictly below one another (for instance: all items with one given
    key) keep their order. *)
Section Stable.
Variable p : A -> bool.
Hypothesis p_flat :
  forall x y, p x = true -> p y = true -> ltb (key x) (key y) = false.

Lemma filter_insert (x : A) (l : list A) :
  filter p (insert key ltb x l) = filter p (x :: l).
Proof.
  induction l as [|y l IH]; [reflexivity|].
  cbn [insert]. destruct (ltb (key y) (key x)) eqn:Hyx; [|reflexivity].
  cbn [filter] in *. rewrite IH.
  destruct (p y) eqn:Hy, (p x) eqn:Hx; try reflexivity.
  rewrite (p_flat _ _ Hy Hx) in Hyx. discriminate.
Qed.

Lemma filter_sort_ascending (l : list A) :
  filter p (sort_ascending key ltb l) = filter p l.
Proof.
  induction l as [|x l IH]; [reflexivity|].
  cbn [sort_ascending fold_right]. rewrite filter_insert.
  cbn [filter]. fold (sort_ascending key ltb l). now rewrite IH.
Qed.

Lemma filter_list_sort (reverse : bool) (l : list A) :
  filter p (list_sort key ltb reverse l) = filter p l.
Proof.
  destruct reverse; cbn [list_sort]; [|apply filter_sort_ascending].
  rewrite filter_rev, filter_sort_ascending, filter_rev.
  apply rev_involutive.
Qed.
End Stable.

(** Order: [ltb] is a strict weak order. *)
Section Ordered.
Hypothesis ltb_asym :
  forall a b, ltb a b = true -> ltb b a = false.
Hypothesis ltb_negtrans :
  forall a b c, ltb a c = true -> ltb a b = true \/ ltb b c = true.


Lemma insert_sorted (x : A) (l : list A) :
  StronglySorted (ascending key ltb) l ->
  StronglySorted (ascending key ltb) (insert key ltb x l).
Proof.
  induction 1 as [|y l Hl IH Hy]; cbn [insert].
  - repeat constructor.
  - destruct (ltb (key y) (key x)) eqn:Hyx.
    + constructor; [exact IH|].
      rewrite insert_perm.
      constructor; [|exact Hy]. apply ltb_asym, Hyx.
    + constructor; [now constructor|].
      constructor; [exact Hyx|].
      rewrite Forall_forall in *. intros z Hz.
      specialize (Hy z Hz). unfold ascending in *.
      destruct (ltb (key z) (key x)) eqn:Hzx; [|reflexivity].
      destruct (ltb_negtrans _ (key y) _ Hzx) as [E|E]; congruence.
Qed.

Lemma sort_ascending_sorted (l : list A) :
  StronglySorted (ascending key ltb) (sort_ascending key ltb l).
Proof.
  induction l as [|x l IH]; [constructor|].
  cbn [sort_ascending fold_right]. now apply insert_sorted.
Qed.

Lemma sorted_snoc (R : A -> A -> Prop) (l : list A) (x : A) :
  StronglySorted R l -> Forall (fun y => R y x) l ->
  StronglySorted R (l ++ [x]).
Proof.
  induction 1 as [|y l Hl IH Hy]; intros Hx; cbn [app].
  - repeat constructor.
  - inversion Hx as [|? ? Hyx Hlx]; subst.
    constructor; [now apply IH|].
    apply Forall_app. split; [exact Hy|now constructor].
Qed.

Lemma sorted_rev (l : list A) :
  StronglySorted (ascending key ltb) l -> StronglySorted (descending key ltb) (rev l).
Proof.
  induction 1 as [|y l Hl IH Hy]; cbn [rev]; [constructor|].
  apply sorted_snoc; [exact IH|].
  rewrite Forall_forall in *. intros z Hz.
  apply in_rev in Hz. exact (Hy z Hz).
Qed.

Lemma list_sort_reverse_sorted (l : list A) :
  StronglySorted (descending key ltb) (list_sort key ltb true l).
Proof. cbn [list_sort]. apply sorted_rev, sort_ascending_sorted. Qed.
End Ordered.
End SortFacts.

(** ** Tuple order *)

Lemma tuple_ltb_irrefl (a : list Z) : tuple_ltb a a = false.
Proof.
  induction a as [|x a IH]; [reflexivity|].
  cbn [tuple_ltb]. now rewrite Z.ltb_irrefl.
Qed.

Lemma tuple_ltb_asym (a b : list Z) :
  tuple_ltb a b = true -> tuple_ltb b a = false.
Proof.
  revert b. induction a as [|x a IH]; intros [|y b]; cbn [tuple_ltb];
    try congruence.
  destruct (x <? y)%Z eqn:Hxy, (y <? x)%Z eqn:Hyx; try congruence; try lia.
  apply IH.
Qed.

Lemma tuple_ltb_negtrans (a b c : list Z) :
  tuple_ltb a c = true -> tuple_ltb a b = true \/ tuple_ltb b c = true.
Proof.
  revert b c. induction a as [|x a IH]; intros [|y b] [|z c];
    cbn [tuple_ltb]; try (intuition congruence).
  destruct (x <? z)%Z eqn:Hxz, (z <? x)%Z eqn:Hzx,
           (x <? y)%Z eqn:Hxy, (y <? x)%Z eqn:Hyx,
           (y <? z)%Z eqn:Hyz, (z <? y)%Z eqn:Hzy;
    try (intuition congruence); try lia.
  apply IH.
Qed.

Lemma tuple_ltb_total (a b : list Z) :
  tuple_ltb a b = false -> tuple_ltb b a = false -> a = b.
Proof.
  revert b. induction a as [|x a IH]; intros [|y b]; cbn [tuple_ltb];
    try congruence.
  destruct (x <? y)%Z eqn:Hxy, (y <? x)%Z eqn:Hyx; try congruence.
  intros Hab Hba. f_equal; [lia|now apply IH].
Qed.

(** ** Time stamps *)

Lemma as_tuple_inj (a b : struct_time) : as_tuple a = as_tuple b -> a = b.
Proof.
  destruct a, b. unfold as_tuple. cbn. intros H.
  injection H. intros. subst. reflexivity.
Qed.

Lemma time_ltb_irrefl (a : struct_time) : time_ltb a a = false.
Proof. apply tuple_ltb_irrefl. Qed.

Lemma time_ltb_asym (a b : struct_time) :
  time_ltb a b = true -> time_ltb b a = false.
Proof. apply tuple_ltb_asym. Qed.

Lemma time_ltb_negtrans (a b c : struct_time) :
  time_ltb a c = true -> time_ltb a b = true \/ time_ltb b c = true.
Proof. apply tuple_ltb_negtrans. Qed.

(** The order is total: two time stamps that are not below one another are
    the same time stamp. *)
Lemma time_ltb_total (a b : struct_time) :
  time_ltb a b = false -> time_ltb b a = false -> a = b.
Proof. intros H1 H2. apply as_tuple_inj, tuple_ltb_total; assumption. Qed.

Lemma time_eqb_eq (a b : struct_time) : time_eqb a b = true <-> a = b.
Proof.
  split.
  - destruct a, b. unfold time_eqb, as_tuple. cbn.
    rewrite !andb_true_iff, !Z.eqb_eq. intuition (subst; reflexivity).
  - intros ->. destruct b. unfold time_eqb, as_tuple. cbn.
    now rewrite !Z.eqb_refl.
Qed.


Lemma published_at_flat (k : struct_time) (x y : NewsItem) :
  published_at k x = true -> published_at k y = true ->
  time_ltb (time_key x) (time_key y) = false.
Proof.
  unfold published_at, time_key.
  destruct (published_parsed x) as [a|]; [|discriminate].
  destruct (published_parsed y) as [b|]; [|discriminate].
  rewrite !time_eqb_eq. intros -> ->. apply time_ltb_irrefl.
Qed.

Lemma ranking_descending (l : list NewsItem) :
  StronglySorted (descending time_key time_ltb) (ranking l).
Proof.
  apply (list_sort_reverse_sorted _ _ time_key time_ltb);
    [exact time_ltb_asym | exact time_ltb_negtrans].
Qed.

Lemma ranking_perm (l : list NewsItem) : Permutation (ranking l) l.
Proof. apply list_sort_perm. Qed.

Lemma ranking_length (l : list NewsItem) : length (ranking l) = length l.
Proof. apply Permutation_length, ranking_perm. Qed.

Lemma ranking_stable (k : struct_time) (l : list NewsItem) :
  filter (published_at k) (ranking l) = filter (published_at k) l.
Proof. apply filter_list_sort, published_at_flat. Qed.

Lemma ranking_short (l : list NewsItem) : length l <= 1 -> ranking l = l.
Proof.
  destruct l as [|x [|y l]]; cbn [length]; [reflexivity|reflexivity|lia].
Qed.

Lemma strongly_sorted_on {A} (R R' : A -> A -> Prop) (l : list A) :
  StronglySorted R l ->
  (forall x y, In x l -> In y l -> R x y -> R' x y) ->
  StronglySorted R' l.
Proof.
  induction 1 as [|x l Hl IH Hx]; intros Himp; [constructor|].
  constructor.
  - apply IH. intros a b Ha Hb. apply Himp; now right.
  - rewrite Forall_forall in *. intros y Hy.
    apply Himp; [now left|now right|now apply Hx].
Qed.

Lemma ranking_newest_first (l : list NewsItem) :
  forallb is_dated l = true -> StronglySorted newest_first (ranking l).
Proof.
  intros Hdated.
  apply (strongly_sorted_on (descending time_key time_ltb));
    [apply ranking_descending|].
  assert (Hall : forall x, In x (ranking l) -> is_dated x = true).
  { intros x Hx. apply (Permutation_in _ (ranking_perm l)) in Hx.
    rewrite forallb_forall in Hdated. now apply Hdated. }
  intros x y Hx Hy. apply Hall in Hx, Hy.
  unfold descending, time_key, newest_first, is_dated in *.
  destruct (published_parsed x) as [a|]; [|discriminate].
  destruct (published_parsed y) as [b|]; [|discriminate].
  intros H. now exists a, b.
Qed.

(** ** A sort whose comparison may raise *)

Section SortRaisingFacts.
Variables (A K T : Type) (key : A -> K) (lt : K -> K -> result bool).
Variables (tkey : A -> T) (ltb : T -> T -> bool) (good : A -> bool).
Hypothesis lt_good :
  forall x y, good x = true -> good y = true ->
              lt (key x) (key y) = Ok (ltb (tkey x) (tkey y)).
Hypothesis lt_bad_left :
  forall x y, good x = false -> lt (key x) (key y) = Raise TypeError.
Hypothesis lt_bad_right :
  forall x y, good y = false -> lt (key x) (key y) = Raise TypeError.

Lemma insert_raising_good (x : A) (l : list A) :
  good x = true -> forallb good l = true ->
  insert_raising key lt x l = Ok (insert tkey ltb x l).
Proof.
  intros Hx. induction l as [|y l IH]; cbn [forallb]; [reflexivity|].
  rewrite andb_true_iff. intros [Hy Hl].
  cbn [insert_raising insert]. rewrite (lt_good _ _ Hy Hx). cbn [bind].
  destruct (ltb (tkey y) (tkey x)); [|reflexivity].
  now rewrite (IH Hl).
Qed.

Lemma forallb_perm (l l' : list A) :
  Permutation l l' -> forallb good l = forallb good l'.
Proof.
  induction 1; cbn [forallb]; try congruence.
  now rewrite !andb_assoc, (andb_comm (good y)).
Qed.

(** The sort returns the stable order when it compares good items only,
    and raises [TypeError] otherwise: when the list has two items or more
    and one of them is not good. *)
Lemma sort_ascending_raising_spec (l : list A) :
  sort_ascending_raising key lt l
  = if (length l <=? 1) || forallb good l
    then Ok (sort_ascending tkey ltb l)
    else Raise TypeError.
Proof.
  induction l as [|x l IH]; [reflexivity|].
  cbn [sort_ascending_raising]. rewrite IH. clear IH.
  destruct l as [|y l]; [reflexivity|].
  change (length (x :: y :: l) <=? 1) with false.
  cbn [orb]. change (forallb good (x :: y :: l))
    with (good x && forallb good (y :: l)).
  assert (Hperm := sort_ascending_perm _ _ tkey ltb (y :: l)).
  destruct (forallb good (y :: l)) eqn:Hl.
  - rewrite orb_true_r. cbn [bind]. destruct (good x) eqn:Hx; cbn [andb].
    + rewrite insert_raising_good; [reflexivity|exact Hx|].
      now rewrite (forallb_perm _ _ Hperm).
    + destruct (sort_ascending tkey ltb (y :: l)) as [|z s] eqn:E.
      * apply Permutation_length in Hperm. discriminate.
      * cbn [insert_raising]. now rewrite (lt_bad_right z x Hx).
  - rewrite andb_false_r, orb_false_r.
    destruct l as [|z l]; [|reflexivity].
    cbn [length Nat.leb bind sort_ascending fold_right insert insert_raising].
    cbn [forallb] in Hl. rewrite andb_true_r in Hl.
    now rewrite (lt_bad_left y x Hl).
Qed.

Lemma list_sort_raising_spec (reverse : bool) (l : list A) :
  list_sort_raising key lt reverse l
  = if (length l <=? 1) || forallb good l
    then Ok (list_sort tkey ltb reverse l)
    else Raise TypeError.
Proof.
  destruct reverse; cbn [list_sort_raising list_sort];
    [|apply sort_ascending_raising_spec].
  rewrite sort_ascending_raising_spec, length_rev.
  rewrite (forallb_perm (rev l) l)
    by (symmetry; apply Permutation_rev).
  now destruct ((length l <=? 1) || forallb good l).
Qed.
End SortRaisingFacts.

(** The sort of the news: the ranking when it compares dated items only,
    [TypeError] when it meets an item without a date among two or more. *)
Lemma sort_newest_first_spec (l : list NewsItem) :
  sort_newest_first l
  = if comparable l then Ok (ranking l) else Raise TypeError.
Proof.
  unfold sort_newest_first, comparable, ranking.
  apply (list_sort_raising_spec _ _ _ published_parsed time_lt time_key
           time_ltb is_dated); unfold is_dated, time_key.
  - intros x y.
    destruct (published_parsed x), (published_parsed y); try discriminate.
    reflexivity.
  - intros x y. now destruct (published_parsed x).
  - intros x y. destruct (published_parsed y); [discriminate|].
    now destruct (published_parsed x).
Qed.

Lemma sorted_or_dropped_incl (l : list NewsItem) (item : NewsItem) :
  In item (sorted_or_dropped l) -> In item l.
Proof.
  unfold sorted_or_dropped. destruct (comparable l); [|contradiction].
  apply Permutation_in, ranking_perm.
Qed.

Lemma sorted_or_dropped_length (l : list NewsItem) :
  length (sorted_or_dropped l) <= length l.
Proof.
  unfold sorted_or_dropped. destruct (comparable l); [|cbn; lia].
  now rewrite ranking_length.
Qed.

Lemma sorted_or_dropped_sorted (l : list NewsItem) :
  StronglySorted newest_first (sorted_or_dropped l).
Proof.
  unfold sorted_or_dropped, comparable.
  destruct (Nat.leb_spec (length l) 1) as [Hshort|_]; cbn [orb].
  - rewrite ranking_short by exact Hshort.
    destruct l as [|x [|y l]]; [repeat constructor..|cbn in Hshort; lia].
  - destruct (forallb is_dated l) eqn:Hdated; [|constructor].
    now apply ranking_newest_first.
Qed.


(** ** Tag removal *)

Lemma lazy_close_shorter (s rest : pystr) :
  Regex.lazy_close s = Some rest -> length rest < length s.
Proof.
  revert rest. induction s as [|c s IH]; intros rest; cbn; [discriminate|].
  destruct (char_eqb c Regex.GT).
  - intros [= ->]. lia.
  - destruct (char_eqb c Regex.LT); [discriminate|].
    intros H. specialize (IH _ H). lia.
Qed.

Lemma match_tag_shorter (s rest : pystr) :
  Regex.match_tag s = Some rest -> length rest < length s.
Proof.
  destruct s as [|c0 [|c1 s]]; cbn; try discriminate.
  destruct (char_eqb c0 Regex.LT && negb (char_eqb c1 Regex.LT));
    [|discriminate].
  intros H. apply lazy_close_shorter in H. lia.
Qed.

(** A match starts with '<'. *)
Lemma match_tag_starts_lt (c : char) (s rest : pystr) :
  Regex.match_tag (c :: s) = Some rest -> c = Regex.LT.
Proof.
  destruct s as [|c1 s]; cbn; [discriminate|].
  unfold char_eqb. destruct (N.eqb_spec c Regex.LT); [easy|discriminate].
Qed.

(** Any fuel from the length of the text on gives the same result. *)
Lemma sub_tags_fuel_enough (fuel fuel' : nat) (s : pystr) :
  length s <= fuel -> length s <= fuel' ->
  Regex.sub_tags_fuel fuel s = Regex.sub_tags_fuel fuel' s.
Proof.
  revert fuel' s. induction fuel as [|fuel IH]; intros fuel' s H H'.
  - destruct s; [|cbn in H; lia]. now destruct fuel'.
  - destruct fuel' as [|fuel']; [destruct s; [reflexivity|cbn in H'; lia]|].
    destruct s as [|c s]; [reflexivity|].
    cbn [Regex.sub_tags_fuel].
    destruct (Regex.match_tag (c :: s)) as [rest|] eqn:Hm.
    + apply match_tag_shorter in Hm. cbn in *. apply IH; lia.
    + f_equal. cbn in *. apply IH; lia.
Qed.

(** The defining equation of the substitution pass. *)
Lemma sub_tags_step (c : char) (s : pystr) :
  Regex.sub_tags (c :: s) =
  match Regex.match_tag (c :: s) with
  | Some rest => Regex.sub_tags rest
  | None => c :: Regex.sub_tags s
  end.
Proof.
  unfold Regex.sub_tags at 1. cbn [length Regex.sub_tags_fuel].
  destruct (Regex.match_tag (c :: s)) as [rest|] eqn:Hm.
  - apply match_tag_shorter in Hm. cbn in Hm.
    apply sub_tags_fuel_enough; lia.
  - reflexivity.
Qed.

(** A text without '<' has no tag. *)
Lemma sub_tags_no_lt (s : pystr) :
  ~ In Regex.LT s -> Regex.sub_tags s = s.
Proof.
  induction s as [|c s IH]; intros Hno; [reflexivity|].
  rewrite sub_tags_step.
  destruct (Regex.match_tag (c :: s)) as [rest|] eqn:Hm.
  - apply match_tag_starts_lt in Hm. subst c. exfalso. apply Hno. now left.
  - f_equal. apply IH. intros Hin. apply Hno. now right.
Qed.

(** ** Character replacement *)

Lemma replace_char_id (old new : char) (s : pystr) :
  ~ In old s -> replace_char old new s = s.
Proof.
  intros Hno. unfold replace_char.
  rewrite <- (map_id s) at 2. apply map_ext_in.
  intros c Hc. unfold char_eqb. destruct (N.eqb_spec c old); [|reflexivity].
  subst. contradiction.
Qed.

Lemma in_replace_char (old new x : char) (s : pystr) :
  In x (replace_char old new s) -> x = new \/ (x <> old /\ In x s).
Proof.
  unfold replace_char. rewrite in_map_iff. intros [c [Hx Hc]].
  unfold char_eqb in Hx. destruct (N.eqb_spec c old); subst; auto.
Qed.

(** ** Splitting and joining *)


Lemma push_word_words (w : pystr) (ws : list pystr) :
  forallb nonspace w = true -> Forall (fun v => is_word v = true) ws ->
  Forall (fun v => is_word v = true) (push_word w ws).
Proof.
  intros Hw Hws. destruct w; [exact Hws|].
  constructor; [|exact Hws]. unfold is_word. now rewrite Hw.
Qed.

Lemma words_words (s : pystr) :
  forallb nonspace (fst (words s)) = true /\
  Forall (fun v => is_word v = true) (snd (words s)).
Proof.
  induction s as [|c s [IHw IHws]]; cbn [words]; [now split|].
  destruct (words s) as [w ws]. cbn [fst snd] in *.
  destruct (isspace c) eqn:Hc; cbn [fst snd].
  - split; [reflexivity|now apply push_word_words].
  - split; [|exact IHws]. cbn. unfold nonspace at 1. now rewrite Hc.
Qed.

Lemma split_words (s : pystr) :
  Forall (fun v => is_word v = true) (split s).
Proof.
  unfold split. pose proof (words_words s) as [Hw Hws].
  destruct (words s). now apply push_word_words.
Qed.

(** Splitting invents no character. *)
Lemma words_chars (s : pystr) (x : char) :
  (In x (fst (words s)) -> In x s) /\
  (forall v, In v (snd (words s)) -> In x v -> In x s).
Proof.
  induction s as [|c s [IHw IHws]]; cbn [words]; [now split|].
  destruct (words s) as [w ws]. cbn [fst snd] in *.
  destruct (isspace c); cbn [fst snd].
  - split; [contradiction|]. intros v Hv Hx. right.
    destruct w; cbn in Hv; [eauto|].
    destruct Hv as [<-|Hv]; eauto.
  - split.
    + intros [->|Hx]; [now left|right; auto].
    + intros v Hv Hx. right. eauto.
Qed.

Lemma split_chars (s v : pystr) (x : char) :
  In v (split s) -> In x v -> In x s.
Proof.
  unfold split. pose proof (words_chars s x) as [Hw Hws].
  destruct (words s) as [w ws]. cbn [fst snd] in *.
  destruct w; cbn; [apply Hws|].
  intros [<-|Hv]; [exact Hw|now apply Hws].
Qed.

Lemma join_chars (ws : list pystr) (x : char) :
  In x (join [SPACE] ws) -> x = SPACE \/ exists v, In v ws /\ In x v.
Proof.
  induction ws as [|v ws IH]; cbn [join]; [contradiction|].
  destruct ws as [|v' ws].
  - intros Hx. right. exists v. split; [now left|exact Hx].
  - rewrite !in_app_iff. intros [Hx|[[<-|[]]|Hx]].
    + right. exists v. split; [now left|exact Hx].
    + now left.
    + destruct (IH Hx) as [->|[u [Hu Hxu]]]; [now left|].
      right. exists u. split; [now right|exact Hxu].
Qed.

Lemma words_app_nonspace (v s : pystr) :
  forallb nonspace v = true ->
  words (v ++ s) = (v ++ fst (words s), snd (words s)).
Proof.
  induction v as [|c v IH]; cbn [app forallb].
  - intros _. now destruct (words s).
  - rewrite andb_true_iff. intros [Hc Hv]. cbn [words].
    rewrite (IH Hv). unfold nonspace in Hc.
    destruct (isspace c); [discriminate|reflexivity].
Qed.

Lemma split_word_space (v s : pystr) :
  is_word v = true -> split (v ++ SPACE :: s) = v :: split s.
Proof.
  unfold is_word. rewrite andb_true_iff. intros [Hne Hv].
  unfold split. rewrite (words_app_nonspace _ _ Hv). cbn [words].
  destruct (words s) as [w ws].
  change (isspace SPACE) with true. cbn [fst snd]. rewrite app_nil_r.
  destruct v; [discriminate|reflexivity].
Qed.

Lemma split_word (v : pystr) : is_word v = true -> split v = [v].
Proof.
  unfold is_word. rewrite andb_true_iff. intros [Hne Hv].
  unfold split. rewrite <- (app_nil_r v) at 1.
  rewrite (words_app_nonspace _ _ Hv). cbn. rewrite app_nil_r.
  destruct v; [discriminate|reflexivity].
Qed.

(** Joining words with single spaces and splitting again gives the
    words. *)
Lemma split_join (ws : list pystr) :
  Forall (fun v => is_word v = true) ws -> split (join [SPACE] ws) = ws.
Proof.
  induction 1 as [|v ws Hv Hws IH]; [reflexivity|].
  cbn [join]. destruct ws as [|v' ws]; [now apply split_word|].
  cbn [app]. rewrite (split_word_space _ _ Hv). now rewrite IH.
Qed.

(** ** Stripping *)


Lemma lstrip_clean (s : pystr) : starts_clean s = true -> lstrip s = s.
Proof.
  destruct s as [|c s]; [reflexivity|]. cbn. unfold nonspace.
  now destruct (isspace c).
Qed.

Lemma word_starts_clean (v s : pystr) :
  is_word v = true -> starts_clean (v ++ s) = true.
Proof.
  unfold is_word. destruct v as [|c v]; [discriminate|]. cbn.
  rewrite andb_true_iff. tauto.
Qed.

Lemma join_starts_clean (ws : list pystr) :
  Forall (fun v => is_word v = true) ws ->
  starts_clean (join [SPACE] ws) = true.
Proof.
  destruct 1 as [|v ws Hv Hws]; [reflexivity|]. cbn [join].
  destruct ws; [|now apply word_starts_clean].
  rewrite <- (app_nil_r v). now apply word_starts_clean.
Qed.

Lemma word_ends_clean (v : pystr) :
  is_word v = true ->
  exists pre c, v = pre ++ [c] /\ nonspace c = true.
Proof.
  unfold is_word. rewrite andb_true_iff. intros [Hne Hv].
  destruct (exists_last (l := v)) as [pre [c ->]]; [now destruct v|].
  exists pre, c. split; [reflexivity|].
  rewrite forallb_app in Hv. cbn in Hv.
  rewrite !andb_true_iff in Hv. tauto.
Qed.

Lemma join_ends_clean (ws : list pystr) :
  Forall (fun v => is_word v = true) ws -> ws <> [] ->
  exists pre c, join [SPACE] ws = pre ++ [c] /\ nonspace c = true.
Proof.
  induction 1 as [|v ws Hv Hws IH]; intros Hne; [contradiction|].
  cbn [join]. destruct ws as [|v' ws]; [now apply word_ends_clean|].
  destruct IH as [pre [c [E Hc]]]; [discriminate|].
  exists (v ++ [SPACE] ++ pre), c. split; [|exact Hc].
  rewrite E. now rewrite <- !app_assoc.
Qed.

Lemma strip_join (ws : list pystr) :
  Forall (fun v => is_word v = true) ws ->
  strip (join [SPACE] ws) = join [SPACE] ws.
Proof.
  intros Hws. unfold strip.
  rewrite (lstrip_clean _ (join_starts_clean _ Hws)).
  unfold rstrip. destruct ws as [|v ws]; [reflexivity|].
  destruct (join_ends_clean _ Hws) as [pre [c [E Hc]]]; [discriminate|].
  rewrite E, rev_app_distr. cbn [rev app].
  rewrite lstrip_clean by exact Hc.
  cbn [rev]. now rewrite rev_involutive.
Qed.

(** ** Runs of spaces *)


Lemma nonspace_not_space (c : char) : nonspace c = true -> is_space c = false.
Proof.
  unfold nonspace, is_space, char_eqb.
  destruct (N.eqb_spec c SPACE) as [->|]; [discriminate|reflexivity].
Qed.

Lemma has_double_space_nonspace (c : char) (s : pystr) :
  nonspace c = true -> has_double_space (c :: s) = has_double_space s.
Proof.
  intros Hc. cbn [has_double_space]. destruct s; [reflexivity|].
  now rewrite (nonspace_not_space _ Hc).
Qed.

Lemma has_double_space_word (v s : pystr) :
  forallb nonspace v = true ->
  has_double_space (v ++ s) = has_double_space s.
Proof.
  induction v as [|c v IH]; [reflexivity|]. cbn [forallb app].
  rewrite andb_true_iff. intros [Hc Hv].
  rewrite (has_double_space_nonspace _ _ Hc). now apply IH.
Qed.

Lemma has_double_space_space (s : pystr) :
  starts_clean s = true ->
  has_double_space (SPACE :: s) = has_double_space s.
Proof.
  destruct s as [|d s]; [reflexivity|]. cbn [starts_clean]. intros Hd.
  cbn [has_double_space]. rewrite (nonspace_not_space _ Hd).
  now rewrite andb_false_r.
Qed.

Lemma join_single_spaced (ws : list pystr) :
  Forall (fun v => is_word v = true) ws ->
  has_double_space (join [SPACE] ws) = false.
Proof.
  induction 1 as [|v ws Hv Hws IH]; [reflexivity|].
  assert (Hv' : forallb nonspace v = true).
  { unfold is_word in Hv. rewrite andb_true_iff in Hv. tauto. }
  cbn [join]. destruct ws as [|v' ws].
  - rewrite <- (app_nil_r v). now rewrite has_double_space_word.
  - rewrite has_double_space_word by exact Hv'. cbn [app].
    rewrite has_double_space_space by now apply join_starts_clean.
    exact IH.
Qed.

(** The boolean test finds every pair of adjacent spaces. *)
Lemma has_double_space_complete (pre post : pystr) :
  has_double_space (pre ++ SPACE :: SPACE :: post) = true.
Proof.
  induction pre as [|c pre IH]; [reflexivity|].
  cbn [app has_double_space].
  destruct (pre ++ SPACE :: SPACE :: post) eqn:E.
  - now destruct pre.
  - rewrite IH. apply orb_true_r.
Qed.

(** ** Shape of a normalised text *)


Lemma clean_text_shape (T : pystr) :
  T <> [] ->
  _clean_text T = join [SPACE] (split (persian_letters (Regex.sub_tags T))).
Proof.
  intros HT. unfold _clean_text. destruct T; [contradiction|].
  cbn [truthy negb]. apply strip_join, split_words.
Qed.

Lemma in_persian_letters (x : char) (s : pystr) :
  In x (persian_letters s) -> x <> ARABIC_YEH /\ x <> ARABIC_KAF.
Proof.
  unfold persian_letters. intros H.
  apply in_replace_char in H as [->|[Hk H]]; [split; discriminate|].
  apply in_replace_char in H as [->|[Hy _]]; [split; discriminate|].
  now split.
Qed.

Lemma persian_letters_fixed (s : pystr) :
  (forall x, In x s -> x <> ARABIC_YEH /\ x <> ARABIC_KAF) ->
  persian_letters s = s.
Proof.
  intros H. unfold persian_letters.
  rewrite (replace_char_id ARABIC_YEH); [apply replace_char_id|];
    intros Hin; now destruct (H _ Hin).
Qed.

(** ** Slices, membership and the collecting loop *)

Lemma slice_to_firstn {A} (n : Z) (l : list A) :
  (0 <= n)%Z -> slice_to n l = firstn (Z.to_nat n) l.
Proof.
  intros Hn. unfold slice_to.
  destruct (Z.ltb_spec n 0); [lia|reflexivity].
Qed.

Lemma firstn_in {A} (n : nat) (l : list A) (x : A) :
  In x (firstn n l) -> In x l.
Proof.
  intros H. rewrite <- (firstn_skipn n l). apply in_or_app. now left.
Qed.

Lemma slice_to_incl {A} (n : Z) (l : list A) (x : A) :
  In x (slice_to n l) -> In x l.
Proof. unfold slice_to. destruct (n <? 0)%Z; apply firstn_in. Qed.

Lemma slice_to_nil {A} (n : Z) : slice_to n (@nil A) = [].
Proof. unfold slice_to. destruct (n <? 0)%Z; apply firstn_nil. Qed.

(** Running the sort inside an operation's [try]: the value the operation
    returns is computed from the ranking, or is the empty list of the
    [except] branch. *)
Lemma sort_then_slice (l : list NewsItem) (limit : Z) :
  try_except
    (all_news <- sort_newest_first l ;; Ok (slice_to limit all_news))
    (fun _ => Ok [])
  = Ok (slice_to limit (sorted_or_dropped l)).
Proof.
  rewrite sort_newest_first_spec. unfold sorted_or_dropped.
  destruct (comparable l); cbn [bind try_except]; [reflexivity|].
  now rewrite slice_to_nil.
Qed.

Lemma firstn_short {A} (n : nat) (l : list A) :
  length l <= n -> firstn n l = l.
Proof. apply firstn_all2. Qed.

Lemma str_eqb_eq (a b : pystr) : str_eqb a b = true <-> a = b.
Proof.
  revert b. induction a as [|x a IH]; intros [|y b]; cbn; try easy.
  unfold char_eqb. rewrite andb_true_iff, N.eqb_eq, IH.
  split; [intros [-> ->]; reflexivity|intros [= -> ->]; now split].
Qed.

Lemma dict_lookup_missing {V} (k : pystr) (d : list (pystr * V)) :
  ~ In k (map fst d) -> dict_lookup k d = None.
Proof.
  induction d as [|[k' v] d IH]; cbn; [reflexivity|]. intros Hk.
  destruct (str_eqb k k') eqn:E.
  - apply str_eqb_eq in E. subst. exfalso. apply Hk. now left.
  - apply IH. intros Hin. apply Hk. now right.
Qed.


Lemma starts_with_prefix (needle hay : pystr) :
  starts_with needle hay = true -> exists post, hay = needle ++ post.
Proof.
  revert hay. induction needle as [|x n IH]; intros hay; cbn.
  - intros _. now exists hay.
  - destruct hay as [|y h]; [discriminate|].
    unfold char_eqb. rewrite andb_true_iff, N.eqb_eq. intros [-> H].
    destruct (IH _ H) as [post ->]. now exists post.
Qed.

Lemma str_in_substring (needle hay : pystr) :
  str_in needle hay = true -> substring needle hay.
Proof.
  induction hay as [|c h IH]; cbn [str_in]; rewrite orb_true_iff.
  - intros [H|H]; [|discriminate].
    destruct (starts_with_prefix _ _ H) as [post E]. now exists [], post.
  - intros [H|H].
    + destruct (starts_with_prefix _ _ H) as [post E]. now exists [], post.
    + destruct (IH H) as [pre [post ->]]. now exists (c :: pre), post.
Qed.

Lemma starts_with_app (needle post : pystr) :
  starts_with needle (needle ++ post) = true.
Proof.
  induction needle as [|x n IH]; [reflexivity|].
  cbn. unfold char_eqb. now rewrite N.eqb_refl.
Qed.

Lemma substring_str_in (needle hay : pystr) :
  substring needle hay -> str_in needle hay = true.
Proof.
  intros [pre [post ->]]. induction pre as [|c pre IH].
  - cbn [app]. destruct (needle ++ post) eqn:E; cbn [str_in];
      rewrite <- E, starts_with_app; reflexivity.
  - cbn [app str_in]. rewrite IH. apply orb_true_r.
Qed.

Lemma str_in_iff (needle hay : pystr) :
  str_in needle hay = true <-> substring needle hay.
Proof. split; [apply str_in_substring|apply substring_str_in]. Qed.

Section CollectFacts.
Variable matches : NewsItem -> bool.

Lemma collect_spec (limit : Z) (all_news acc : list NewsItem) :
  (Z.of_nat (length acc) < limit)%Z ->
  collect matches limit acc all_news =
  acc ++ firstn (Z.to_nat limit - length acc) (filter matches all_news).
Proof.
  revert acc. induction all_news as [|x l IH]; intros acc Hacc.
  - cbn. now rewrite firstn_nil, app_nil_r.
  - cbn [collect filter]. destruct (matches x).
    + rewrite length_app. cbn [length].
      replace (Z.to_nat limit - length acc)
        with (S (Z.to_nat limit - (length acc + 1))) by lia.
      cbn [firstn].
      destruct (Z.geb_spec (Z.of_nat (length acc + 1)) limit) as [Hge|Hlt].
      * replace (Z.to_nat limit - (length acc + 1)) with 0 by lia.
        reflexivity.
      * rewrite IH by (rewrite length_app; cbn [length]; lia).
        rewrite length_app. cbn [length].
        now rewrite <- app_assoc.
    + destruct (Z.geb_spec (Z.of_nat (length acc)) limit); [lia|].
      now apply IH.
Qed.

(** From an empty accumulator and a positive limit the loop returns the
    first [limit] matching items. *)
Lemma collect_first_matches (limit : Z) (all_news : list NewsItem) :
  (0 < limit)%Z ->
  collect matches limit [] all_news =
  firstn (Z.to_nat limit) (filter matches all_news).
Proof.
  intros Hl. rewrite collect_spec by (cbn; lia).
  cbn [app length]. now rewrite Nat.sub_0_r.
Qed.

(** With a limit of zero or less the loop stops after the first item. *)
Lemma collect_no_limit (limit : Z) (all_news : list NewsItem) :
  (limit <= 0)%Z -> length (collect matches limit [] all_news) <= 1.
Proof.
  intros Hl. destruct all_news as [|x l]; cbn [collect]; [cbn; lia|].
  destruct (matches x); cbn [app length].
  - destruct (Z.geb_spec (Z.of_nat 1) limit); [cbn; lia|lia].
  - destruct (Z.geb_spec (Z.of_nat 0) limit); [cbn; lia|lia].
Qed.

Lemma collect_incl (limit : Z) (all_news acc : list NewsItem)
    (x : NewsItem) :
  In x (collect matches limit acc all_news) -> In x acc \/ In x all_news.
Proof.
  revert acc. induction all_news as [|y l IH]; intros acc; cbn [collect];
    [now left|].
  destruct (matches y).
  - destruct (Z.of_nat (length (acc ++ [y])) >=? limit)%Z; intros H.
    + apply in_app_or in H as [H|[<-|[]]]; [now left|right; now left].
    + apply IH in H as [H|H]; [|right; now right].
      apply in_app_or in H as [H|[<-|[]]]; [now left|right; now left].
  - destruct (Z.of_nat (length acc) >=? limit)%Z; intros H; [now left|].
    apply IH in H as [H|H]; [now left|right; now right].
Qed.
End CollectFacts.

(* ================================================================== *)
(** * What one call computes *)

Section Pipeline.
Variable w : World.


Lemma format_date_returns (date_str : pystr) :
  _format_date w date_str = Ok (formatted_date w date_str).
Proof.
  unfold formatted_date, _format_date.
  destruct (truthy date_str); cbn [negb try_except]; [|reflexivity].
  destruct (parsedate_to_datetime w date_str) as [[dt|]|e];
    cbn [bind try_except]; try reflexivity.
  destruct (getitem persian_months (month dt - 1)); reflexivity.
Qed.


Lemma build_item_spec (source_name : pystr) (entry : Entry) :
  build_item w source_name entry =
  Ok (if entry_ok entry then Some (item_of w source_name entry) else None).
Proof.
  unfold build_item. rewrite format_date_returns. cbn [bind].
  unfold entry_ok, item_of. cbn [title link].
  destruct (truthy (_clean_text _)), (truthy (get (entry_link entry) []));
    reflexivity.
Qed.

Lemma entries_loop_spec (source_name : pystr) (es : list Entry)
    (news_items : list NewsItem) :
  entries_loop w source_name es news_items =
  news_items ++ map (item_of w source_name) (filter entry_ok es).
Proof.
  revert news_items. induction es as [|e es IH]; intros acc.
  - cbn. now rewrite app_nil_r.
  - cbn [entries_loop filter]. rewrite build_item_spec.
    destruct (entry_ok e); rewrite IH; [|reflexivity].
    cbn [map]. now rewrite <- app_assoc.
Qed.


Lemma fetch_feed_returns (source_name feed_url : pystr) :
  _fetch_feed w source_name feed_url =
  Ok (source_items w source_name feed_url).
Proof.
  unfold _fetch_feed, source_items.
  destruct (session_get w feed_url) as [response|e]; cbn [bind try_except];
    [|now destruct e].
  destruct (status response =? 200)%Z; cbn [negb]; [|reflexivity].
  destruct (text response) as [content|e]; cbn [bind try_except];
    [|now destruct e].
  destruct (feedparser_parse w content) as [feed|e]; cbn [bind try_except];
    [|now destruct e].
  rewrite entries_loop_spec. reflexivity.
Qed.


Lemma merge_results_lists (ls : list (list NewsItem))
    (all_news : list NewsItem) :
  merge_results (map inl ls) all_news = all_news ++ concat ls.
Proof.
  revert all_news. induction ls as [|l ls IH]; intros acc; cbn.
  - now rewrite app_nil_r.
  - destruct l as [|x l]; cbn [truthy]; rewrite IH; [reflexivity|].
    now rewrite <- app_assoc.
Qed.

Lemma fetch_all_lists :
  fetch_all w =
  map inl (map (fun feed => source_items w (fst feed) (snd feed)) rss_feeds).
Proof.
  unfold fetch_all, gather. rewrite !map_map. apply map_ext.
  intros feed. now rewrite fetch_feed_returns.
Qed.

Lemma merge_fetch_all : merge_results (fetch_all w) [] = (merged w).
Proof.
  rewrite fetch_all_lists, merge_results_lists. cbn [app].
  unfold merged. now rewrite flat_map_concat_map.
Qed.

Lemma get_latest_news_returns (limit : Z) :
  get_latest_news w limit =
  Ok (slice_to limit (sorted_or_dropped (merged w))).
Proof.
  unfold get_latest_news. cbv zeta. rewrite merge_fetch_all.
  apply sort_then_slice.
Qed.

Lemma get_esteghlal_news_returns (limit : Z) :
  get_esteghlal_news w limit =
  Ok (slice_to limit
        (sorted_or_dropped
           (collect (mentions_esteghlal w) limit [] (merged w)))).
Proof.
  unfold get_esteghlal_news. cbv zeta. rewrite merge_fetch_all.
  apply sort_then_slice.
Qed.

Lemma get_news_by_category_returns (category : pystr) (limit : Z) :
  get_news_by_category w category limit =
  Ok (let all_news := slice_to (limit * 3) (sorted_or_dropped (merged w)) in
      match dict_lookup category category_keywords with
      | None => slice_to limit all_news
      | Some keywords =>
          collect (mentions_any w keywords) limit [] all_news
      end).
Proof.
  unfold get_news_by_category. rewrite get_latest_news_returns.
  cbn [bind]. now destruct (dict_lookup category category_keywords).
Qed.

(** Every (merged w) item has a title and a link. *)
Lemma source_items_valid (source_name feed_url : pystr) (item : NewsItem) :
  In item (source_items w source_name feed_url) ->
  title item <> [] /\ link item <> [].
Proof.
  unfold source_items.
  destruct (session_get w feed_url) as [response|]; [|contradiction].
  destruct (status response =? 200)%Z; [|contradiction].
  destruct (text response) as [content|]; [|contradiction].
  destruct (feedparser_parse w content) as [feed|]; [|contradiction].
  rewrite in_map_iff. intros [e [<- He]].
  apply filter_In in He as [_ He]. unfold entry_ok in He.
  apply andb_true_iff in He as [Ht Hl]. cbn [item_of title link].
  split; intros E; rewrite E in *; discriminate.
Qed.

Lemma merged_valid (item : NewsItem) :
  In item (merged w) -> title item <> [] /\ link item <> [].
Proof.
  unfold merged. rewrite in_flat_map. intros [feed [_ H]].
  now apply source_items_valid in H.
Qed.

Lemma sorted_incl (l : list NewsItem) (item : NewsItem) :
  In item (sorted_or_dropped l) -> In item l.
Proof. apply sorted_or_dropped_incl. Qed.


Lemma source_fails_nothing (source_name feed_url : pystr) :
  source_fails w feed_url -> source_items w source_name feed_url = [].
Proof.
  unfold source_fails, source_items.
  destruct (session_get w feed_url) as [response|]; [|reflexivity].
  destruct (Z.eqb_spec (status response) 200); [|reflexivity].
  intros [H|H]; [contradiction|].
  destruct (text response) as [content|]; [|reflexivity].
  destruct (feedparser_parse w content); [contradiction|reflexivity].
Qed.

(** A merged item carries the name of a configured source that did not
    fail. *)
Lemma merged_from_surviving_source (item : NewsItem) :
  In item (merged w) ->
  exists feed,
    In feed rss_feeds /\ source item = fst feed /\
    ~ source_fails w (snd feed).
Proof.
  unfold merged. rewrite in_flat_map. intros [feed [Hfeed Hin]].
  exists feed. split; [exact Hfeed|]. split.
  - unfold source_items in Hin.
    destruct (session_get w (snd feed)) as [response|]; [|contradiction].
    destruct (status response =? 200)%Z; [|contradiction].
    destruct (text response) as [content|]; [|contradiction].
    destruct (feedparser_parse w content) as [fd|]; [|contradiction].
    apply in_map_iff in Hin as [e [<- _]]. reflexivity.
  - intros Hfail. rewrite (source_fails_nothing _ _ Hfail) in Hin.
    contradiction.
Qed.

Lemma all_fail_merged_nil :
  (forall feed, In feed rss_feeds -> source_fails w (snd feed)) ->
  (merged w) = [].
Proof.
  intros H. unfold merged. induction rss_feeds as [|feed feeds IH];
    [reflexivity|].
  cbn [flat_map]. rewrite source_fails_nothing by (apply H; now left).
  apply IH. intros f Hf. apply H. now right.
Qed.
End Pipeline.


(* ================================================================== *)
(** * Properties of the aggregator *)

(** C1.  The claim fails on a feed with a date the feed parser could not
    read.  The default of the fetcher covers a missing [published_parsed]
    only; a [published_parsed] that is [None] stays the sort key, the sort
    raises [TypeError] on it and the [except] branch of [get_latest_news]
    returns the empty list.  In the sample world the two merged items, both
    with a title and a link, are lost. *)
Theorem get_latest_news_loses_the_merge :
  map link (merge_results (fetch_all Sample.world_with_unreadable_date) [])
  = [ustr "https://a/1"; ustr "https://c/1"] /\
  sort_newest_first
    (merge_results (fetch_all Sample.world_with_unreadable_date) [])
  = Raise TypeError /\
  get_latest_news Sample.world_with_unreadable_date 10 = Ok [].
Proof. vm_compute. repeat split. Qed.

(** Scenario D on the sample world: the two items published in the evening
    come out in their merge order, before the older item and the undated
    one. *)
Example get_latest_news_sample :
  match get_latest_news Sample.world 10 with
  | Ok out => map link out
  | Raise _ => []
  end
  = [ustr "https://a/2"; ustr "https://b/2"; ustr "https://a/1";
     ustr "https://b/1"].
Proof. vm_compute. reflexivity. Qed.

(** C2.  Whatever the limit, the category and the outcome of each source,
    the three public operations return a list and do not raise; when every
    source fails they return the empty list. *)
Theorem public_operations_never_raise (w : World) (limit : Z)
    (category : pystr) :
  ((exists out, get_latest_news w limit = Ok out) /\
   (exists out, get_news_by_category w category limit = Ok out) /\
   (exists out, get_esteghlal_news w limit = Ok out)) /\
  ((forall feed, In feed rss_feeds -> source_fails w (snd feed)) ->
   get_latest_news w limit = Ok [] /\
   get_news_by_category w category limit = Ok [] /\
   get_esteghlal_news w limit = Ok []).
Proof.
  rewrite get_latest_news_returns, get_news_by_category_returns,
    get_esteghlal_news_returns.
  split; [repeat split; eexists; reflexivity|].
  intros Hfail. rewrite (all_fail_merged_nil w Hfail).
  change (sorted_or_dropped []) with (@nil NewsItem).
  cbn [collect]. change (sorted_or_dropped []) with (@nil NewsItem).
  cbv zeta. rewrite !slice_to_nil.
  repeat split.
  destruct (dict_lookup category category_keywords); reflexivity.
Qed.

Lemma dead_world_fails :
  forall feed, In feed rss_feeds -> source_fails Sample.dead_world (snd feed).
Proof. intros feed _. exact I. Qed.

Lemma public_operations_never_raise_witness :
  get_latest_news Sample.dead_world 10 = Ok [] /\
  get_news_by_category Sample.dead_world (ustr "football") 10 = Ok [] /\
  get_esteghlal_news Sample.dead_world 10 = Ok [].
Proof.
  apply (public_operations_never_raise Sample.dead_world 10 (ustr "football")).
  exact dead_world_fails.
Defined.

(** C3.  Every item returned by one of the three public operations has a
    non-empty title and a non-empty link.  In the fetcher, an entry whose
    link is empty, or whose title is empty once normalised, is skipped and
    the other entries are processed as if it were not there; a source
    contributes the items of the valid entries among its first ten. *)
Theorem output_items_have_title_and_link (w : World) (limit : Z)
    (category : pystr) :
  (forall out item,
     get_latest_news w limit = Ok out \/
     get_news_by_category w category limit = Ok out \/
     get_esteghlal_news w limit = Ok out ->
     In item out -> title item <> [] /\ link item <> []) /\
  (forall source_name before entry after news_items,
     get (entry_link entry) [] = [] \/
     _clean_text (get (entry_title entry) NO_TITLE) = [] ->
     entries_loop w source_name (before ++ entry :: after) news_items
     = entries_loop w source_name (before ++ after) news_items) /\
  (forall source_name feed_url response content feed,
     session_get w feed_url = Ok response -> status response = 200%Z ->
     text response = Ok content -> feedparser_parse w content = Ok feed ->
     _fetch_feed w source_name feed_url
     = Ok (map (item_of w source_name)
               (filter entry_ok (firstn 10 (entries feed))))).
Proof.
  split; [|split].
  - intros out item Hout Hin. apply (merged_valid w).
    rewrite get_latest_news_returns, get_news_by_category_returns,
      get_esteghlal_news_returns in Hout.
    cbv zeta in Hout.
    set (keywords := dict_lookup category category_keywords) in Hout.
    clearbody keywords.
    destruct Hout as [[= <-]|[[= <-]|[= <-]]].
    + now apply slice_to_incl, sorted_incl in Hin.
    + destruct keywords.
      * apply collect_incl in Hin as [[]|Hin].
        now apply slice_to_incl, sorted_incl in Hin.
      * apply slice_to_incl in Hin.
        now apply slice_to_incl, sorted_incl in Hin.
    + apply slice_to_incl, sorted_incl, collect_incl in Hin.
      now destruct Hin as [[]|Hin].
  - intros source_name before entry after news_items Hbad.
    rewrite !entries_loop_spec, !filter_app. cbn [filter].
    replace (entry_ok entry) with false; [reflexivity|].
    unfold entry_ok. destruct Hbad as [-> | ->]; cbn [truthy];
      [now rewrite andb_false_r|reflexivity].
  - intros source_name feed_url response content feed Hget Hst Htext Hparse.
    rewrite fetch_feed_returns. unfold source_items.
    now rewrite Hget, Hst, Htext, Hparse.
Qed.

Lemma output_items_have_title_and_link_witness :
  (title (item_of Sample.world (ustr "varzesh3") Sample.transfer) <> [] /\
   link (item_of Sample.world (ustr "varzesh3") Sample.transfer) <> []) /\
  entries_loop Sample.world (ustr "varzesh3")
    ([Sample.derby] ++ Sample.linkless :: [Sample.transfer]) []
  = entries_loop Sample.world (ustr "varzesh3")
      ([Sample.derby] ++ [Sample.transfer]) [] /\
  _fetch_feed Sample.world (ustr "varzesh3")
    (ustr "https://www.varzesh3.com/rss/all")
  = Ok (map (item_of Sample.world (ustr "varzesh3"))
            (filter entry_ok (firstn 10 (entries Sample.feed_a)))).
Proof.
  destruct (output_items_have_title_and_link Sample.world 1 (ustr "chess"))
    as [Hout [Hskip Hfeed]].
  split; [|split].
  - apply (Hout [item_of Sample.world (ustr "varzesh3") Sample.transfer]).
    + left. vm_compute. reflexivity.
    + left. reflexivity.
  - apply Hskip. left. reflexivity.
  - apply (Hfeed _ _ (mk_response 200 (Ok (ustr "a"))) (ustr "a"));
      reflexivity.
Defined.

(* ================================================================== *)
(** * Properties of the text normaliser *)

(** A normalised text without a tag left in it is a fixed point. *)
Lemma clean_text_fixed_when_tagless (T : pystr) :
  Regex.sub_tags (_clean_text T) = _clean_text T ->
  _clean_text (_clean_text T) = _clean_text T.
Proof.
  intros Htag. destruct T as [|c T]; [reflexivity|].
  assert (Hshape := clean_text_shape (c :: T)).
  specialize (Hshape ltac:(discriminate)).
  set (ws := split (persian_letters (Regex.sub_tags (c :: T)))) in *.
  assert (Hws : Forall (fun v => is_word v = true) ws) by apply split_words.
  assert (Hletters : persian_letters (join [SPACE] ws) = join [SPACE] ws).
  { apply persian_letters_fixed. intros x Hx.
    apply join_chars in Hx as [->|[v [Hv Hx]]]; [split; discriminate|].
    apply (in_persian_letters x (Regex.sub_tags (c :: T))).
    exact (split_chars _ _ _ Hv Hx). }
  rewrite Hshape in *.
  destruct (join [SPACE] ws) as [|d s] eqn:E; [reflexivity|].
  rewrite clean_text_shape by discriminate.
  rewrite Htag, Hletters, <- E, split_join by exact Hws.
  reflexivity.
Qed.

(** The claim of C4 as it is written fails: one pass over ["<<a>b>"]
    removes ["<a>"] and leaves ["<b>"], which a second pass removes. *)
Lemma clean_text_not_idempotent :
  _clean_text (_clean_text (ustr "<<a>b>")) <> _clean_text (ustr "<<a>b>").
Proof. vm_compute. discriminate. Qed.

(** The claim of C5 as it is written fails: a '<' that opens no tag, and a
    '>' that closes none, stay in the text. *)
Lemma clean_text_keeps_angle_brackets :
  In Regex.LT (_clean_text (ustr "a > b < c")) /\
  In Regex.GT (_clean_text (ustr "a > b < c")).
Proof.
  split; vm_compute; repeat (first [left; reflexivity | right]).
Qed.

(** C5 (amended).  For every text [T], the normalised text has no two
    consecutive spaces. *)
Theorem clean_text_single_spaced (T : pystr) :
  has_double_space (_clean_text T) = false /\
  forall before after, _clean_text T <> before ++ SPACE :: SPACE :: after.
Proof.
  assert (H : has_double_space (_clean_text T) = false).
  { destruct T as [|c T]; [reflexivity|].
    rewrite clean_text_shape by discriminate.
    apply join_single_spaced, split_words. }
  split; [exact H|]. intros before after E. rewrite E in H.
  rewrite has_double_space_complete in H. discriminate.
Qed.

Example clean_text_sample :
  _clean_text (ustr "  <p>a   <b>b</b></p> c ") = ustr "a b c".
Proof. vm_compute. reflexivity. Qed.

(* ================================================================== *)
(** * Properties of the date formatter *)


Lemma format_02d_two_digits (z : Z) :
  (0 <= z < 100)%Z -> length (format_02d z) = 2.
Proof.
  intros Hz.
  assert (H : forallb (fun n => length (format_02d (Z.of_nat n)) =? 2)
                      (seq 0 100) = true) by (vm_compute; reflexivity).
  rewrite forallb_forall in H. specialize (H (Z.to_nat z)).
  rewrite Z2Nat.id in H by lia. apply Nat.eqb_eq, H, in_seq. lia.
Qed.

(** C6.  [_format_date] returns the fixed sentinel on the empty string; on
    a date that parses it returns day, Persian month name, year, " - " and
    the time as HH:MM, the month name being the entry of the 12-entry table
    at the month number; when parsing fails it returns the input unchanged;
    and it returns a string in every case. *)
Theorem format_date_contract (w : World) :
  _format_date w [] = Ok DATE_UNKNOWN /\
  (forall date_str dt,
     date_str <> [] ->
     parsedate_to_datetime w date_str = Ok (Some dt) ->
     valid_datetime dt ->
     exists month_name,
       nth_error persian_months (Z.to_nat (month dt) - 1) = Some month_name /\
       _format_date w date_str = Ok (rendered dt month_name) /\
       length (format_02d (hour dt)) = 2 /\
       length (format_02d (minute dt)) = 2) /\
  (forall date_str,
     date_str <> [] ->
     (exists e, parsedate_to_datetime w date_str = Raise e) \/
     parsedate_to_datetime w date_str = Ok None ->
     _format_date w date_str = Ok date_str) /\
  (forall date_str, exists out, _format_date w date_str = Ok out) /\
  length persian_months = 12.
Proof.
  split; [reflexivity|]. split; [|split; [|split; [|reflexivity]]].
  - intros date_str dt Hne Hparse (Hy & Hm & Hd & Hh & Hmin).
    destruct (nth_error persian_months (Z.to_nat (month dt) - 1))
      as [month_name|] eqn:Hnth.
    2: { apply nth_error_None in Hnth. cbn [length persian_months] in Hnth.
         lia. }
    exists month_name. split; [reflexivity|].
    split; [|split; apply format_02d_two_digits; lia].
    unfold _format_date. destruct date_str; [contradiction|].
    cbn [truthy negb]. rewrite Hparse. cbn [bind]. unfold getitem.
    destruct (Z.ltb_spec (month dt - 1) 0); [lia|].
    destruct (Z.ltb_spec (month dt - 1) 0); [lia|].
    replace (Z.to_nat (month dt - 1)) with (Z.to_nat (month dt) - 1) by lia.
    rewrite Hnth. cbn [bind try_except]. unfold rendered.
    now rewrite <- !app_assoc.
  - intros date_str Hne Hfail. unfold _format_date.
    destruct date_str; [contradiction|]. cbn [truthy negb].
    destruct Hfail as [[e ->]| ->]; reflexivity.
  - intros date_str. exists (formatted_date w date_str).
    apply format_date_returns.
Qed.

Lemma format_date_contract_witness :
  (exists month_name,
     nth_error persian_months (Z.to_nat 3 - 1) = Some month_name /\
     _format_date Sample.world Sample.rfc_date
     = Ok (rendered (mk_datetime 2024 3 4 9 5) month_name) /\
     length (format_02d 9) = 2 /\ length (format_02d 5) = 2) /\
  _format_date Sample.world (ustr "yesterday") = Ok (ustr "yesterday").
Proof.
  destruct (format_date_contract Sample.world) as [_ [Hok [Hfail _]]].
  split.
  - apply (Hok Sample.rfc_date (mk_datetime 2024 3 4 9 5)).
    + discriminate.
    + reflexivity.
    + unfold valid_datetime. cbn. lia.
  - apply Hfail; [discriminate|]. left. exists ValueError. reflexivity.
Defined.

Example format_date_sample :
  _format_date Sample.world Sample.rfc_date
  = Ok ([52; 32; 1605; 1575; 1585; 1587; 32]%N ++ ustr "2024 - 09:05").
Proof. vm_compute. reflexivity. Qed.

(* ================================================================== *)
(** * Properties of the filters *)

(** C7.  For a category that is not a key of [category_keywords],
    [get_news_by_category] returns what [get_latest_news] returns for the
    same limit.  [limit] is a count, zero or more (a negative bound of a
    Python slice counts from the end of the list). *)
Theorem unknown_category_is_latest (w : World) (category : pystr)
    (limit : Z) :
  (0 <= limit)%Z ->
  ~ In category (map fst category_keywords) ->
  get_news_by_category w category limit = get_latest_news w limit.
Proof.
  intros Hl Hkey.
  rewrite get_news_by_category_returns, get_latest_news_returns.
  cbv zeta. rewrite (dict_lookup_missing _ _ Hkey).
  rewrite !slice_to_firstn by lia. rewrite firstn_firstn.
  do 2 f_equal. lia.
Qed.

Lemma unknown_category_is_latest_witness :
  get_news_by_category Sample.world (ustr "chess") 2
  = get_latest_news Sample.world 2.
Proof.
  apply (unknown_category_is_latest Sample.world (ustr "chess") 2).
  - lia.
  - cbn. intuition discriminate.
Defined.

(** C8.  [get_news_by_category "football" 5] returns at most five items,
    and each of them has a football keyword inside its lower-cased title or
    its lower-cased description. *)
Theorem football_news_match (w : World) :
  exists out,
    get_news_by_category w (ustr "football") 5 = Ok out /\
    length out <= 5 /\
    forall item, In item out ->
      exists keyword, In keyword football_keywords /\
        (substring keyword (lower w (title item)) \/
         substring keyword (lower w (description item))).
Proof.
  eexists. split; [apply get_news_by_category_returns|].
  change (dict_lookup (ustr "football") category_keywords)
    with (Some football_keywords).
  cbv beta iota zeta. rewrite collect_first_matches by lia.
  split; [apply firstn_le_length|].
  intros item Hin. apply firstn_in, filter_In in Hin as [_ Hm].
  unfold mentions_any in Hm. apply existsb_exists in Hm as [kw [Hkw Hm]].
  exists kw. split; [exact Hkw|].
  apply orb_true_iff in Hm as [Hm|Hm]; [left|right];
    now apply str_in_substring.
Qed.

Example football_news_sample :
  match get_news_by_category Sample.world (ustr "football") 5 with
  | Ok out => map link out
  | Raise _ => []
  end
  = [ustr "https://b/2"; ustr "https://a/1"].
Proof. vm_compute. reflexivity. Qed.

(** C9.  The claim fails on a feed with a date the feed parser could not
    read, by the defect of C1: the two items the loop collected are sorted
    with a key that is [None] for one of them, the sort raises [TypeError]
    and the [except] branch of [get_esteghlal_news] returns the empty list
    instead of the sorted subset. *)
Theorem get_esteghlal_news_loses_the_subset :
  map link
    (collect (mentions_esteghlal Sample.world_with_unreadable_date) 5 []
       (merge_results (fetch_all Sample.world_with_unreadable_date) []))
  = [ustr "https://a/1"; ustr "https://c/1"] /\
  get_esteghlal_news Sample.world_with_unreadable_date 5 = Ok [].
Proof. vm_compute. repeat split. Qed.

(** The fetch order of the sample world puts the older item first; the
    result has the newer one first. *)
Example esteghlal_news_sample :
  map link (filter (mentions_esteghlal Sample.world) (merged Sample.world))
  = [ustr "https://a/1"; ustr "https://b/2"] /\
  match get_esteghlal_news Sample.world 5 with
  | Ok out => map link out
  | Raise _ => []
  end
  = [ustr "https://b/2"; ustr "https://a/1"].
Proof. vm_compute. split; reflexivity. Qed.

(** C10.  [get_all_news] returns what [get_latest_news] returns, for every
    limit. *)
Theorem get_all_news_is_latest (w : World) (limit : Z) :
  get_all_news w limit = get_latest_news w limit.
Proof. reflexivity. Qed.

(* ================================================================== *)
(** * More on the text normaliser *)

(** The guard on the empty text changes nothing: the four passes give the
    empty text on it. *)
Lemma clean_text_passes (T : pystr) :
  _clean_text T = join [SPACE] (split (persian_letters (Regex.sub_tags T))).
Proof.
  destruct T as [|c T]; [reflexivity|]. apply clean_text_shape. discriminate.
Qed.

Lemma match_tag_not_lt (c : char) (s : pystr) :
  c <> Regex.LT -> Regex.match_tag (c :: s) = None.
Proof.
  intros Hc. destruct s as [|c1 s]; [reflexivity|]. cbn.
  unfold char_eqb. destruct (N.eqb_spec c Regex.LT); [contradiction|].
  reflexivity.
Qed.

(** Text without '<' is copied. *)
Lemma sub_tags_app_no_lt (a s : pystr) :
  ~ In Regex.LT a -> Regex.sub_tags (a ++ s) = a ++ Regex.sub_tags s.
Proof.
  induction a as [|c a IH]; intros Hno; [reflexivity|].
  cbn [app]. rewrite sub_tags_step, match_tag_not_lt.
  - f_equal. apply IH. intros Hin. apply Hno. now right.
  - intros ->. apply Hno. now left.
Qed.

Lemma lazy_close_body (body rest : pystr) :
  ~ In Regex.LT body -> ~ In Regex.GT body ->
  Regex.lazy_close (body ++ Regex.GT :: rest) = Some rest.
Proof.
  induction body as [|c body IH]; intros Hlt Hgt; cbn.
  - reflexivity.
  - unfold char_eqb.
    destruct (N.eqb_spec c Regex.GT) as [->|_]; [exfalso; apply Hgt; now left|].
    destruct (N.eqb_spec c Regex.LT) as [->|_]; [exfalso; apply Hlt; now left|].
    apply IH; intros Hin; [apply Hlt|apply Hgt]; now right.
Qed.

Lemma match_tag_element (body rest : pystr) :
  body <> [] -> ~ In Regex.LT body -> ~ In Regex.GT body ->
  Regex.match_tag (Regex.LT :: body ++ Regex.GT :: rest) = Some rest.
Proof.
  destruct body as [|c body]; [contradiction|]. intros _ Hlt Hgt.
  cbn [app Regex.match_tag]. unfold char_eqb at 1 2.
  change (Regex.LT =? Regex.LT)%N with true.
  destruct (N.eqb_spec c Regex.LT) as [->|_]; [exfalso; apply Hlt; now left|].
  cbn [andb negb].
  apply lazy_close_body; intros Hin; [apply Hlt|apply Hgt]; now right.
Qed.

(** X1.  A tag that follows text without '<' is deleted, and the text on
    its two sides is joined: normalising [before <body> after] gives what
    normalising [before after] gives, for a non-empty [body] without '<'
    and '>'. *)
Theorem clean_text_removes_tag (before body after : pystr) :
  ~ In Regex.LT before ->
  body <> [] -> ~ In Regex.LT body -> ~ In Regex.GT body ->
  _clean_text (before ++ [Regex.LT] ++ body ++ [Regex.GT] ++ after)
  = _clean_text (before ++ after).
Proof.
  intros Hbefore Hne Hlt Hgt. rewrite !clean_text_passes.
  rewrite (sub_tags_app_no_lt before after Hbefore).
  rewrite (sub_tags_app_no_lt before _ Hbefore).
  cbn [app]. rewrite sub_tags_step, match_tag_element by assumption.
  reflexivity.
Qed.

Lemma clean_text_removes_tag_witness :
  _clean_text (ustr "goal" ++ [Regex.LT] ++ ustr "br/" ++ [Regex.GT]
                 ++ ustr "less <b>win</b>")
  = _clean_text (ustr "goal" ++ ustr "less <b>win</b>").
Proof.
  apply (clean_text_removes_tag (ustr "goal") (ustr "br/")
           (ustr "less <b>win</b>")); vm_compute;
    first [discriminate | intuition discriminate].
Defined.

(** X2.  The normalised text is in canonical form for whitespace: its only
    whitespace characters are spaces, it neither starts nor ends with one,
    and joining its words with single spaces gives it back. *)
Theorem clean_text_whitespace_canonical (T : pystr) :
  (forall c, In c (_clean_text T) -> isspace c = true -> c = SPACE) /\
  (forall c rest, _clean_text T = c :: rest -> isspace c = false) /\
  (forall front c, _clean_text T = front ++ [c] -> isspace c = false) /\
  join [SPACE] (split (_clean_text T)) = _clean_text T.
Proof.
  rewrite clean_text_passes.
  set (ws := split (persian_letters (Regex.sub_tags T))).
  assert (Hws : Forall (fun v => is_word v = true) ws) by apply split_words.
  repeat split.
  - intros c Hc Hsp. apply join_chars in Hc as [->|[v [Hv Hc]]];
      [reflexivity|].
    rewrite Forall_forall in Hws. specialize (Hws v Hv).
    unfold is_word in Hws. apply andb_true_iff in Hws as [_ Hws].
    rewrite forallb_forall in Hws. specialize (Hws c Hc).
    unfold nonspace in Hws. rewrite Hsp in Hws. discriminate.
  - intros c rest E. pose proof (join_starts_clean ws Hws) as H.
    rewrite E in H. cbn in H. unfold nonspace in H.
    now destruct (isspace c).
  - intros front c E. destruct ws as [|v ws'] eqn:Ews.
    + cbn in E. now destruct front.
    + destruct (join_ends_clean (v :: ws') Hws) as [pre [d [E' Hd]]];
        [discriminate|].
      rewrite E in E'. apply app_inj_tail in E' as [_ ->].
      unfold nonspace in Hd. now destruct (isspace d).
  - now rewrite split_join.
Qed.

(** X3.  The normalised text holds neither the Arabic yeh nor the Arabic
    kaf. *)
Theorem clean_text_persian_only (T : pystr) :
  ~ In ARABIC_YEH (_clean_text T) /\ ~ In ARABIC_KAF (_clean_text T).
Proof.
  rewrite clean_text_passes.
  assert (H : forall x,
    In x (join [SPACE] (split (persian_letters (Regex.sub_tags T)))) ->
    x <> ARABIC_YEH /\ x <> ARABIC_KAF).
  { intros x Hx. apply join_chars in Hx as [->|[v [Hv Hx]]];
      [split; discriminate|].
    apply (in_persian_letters x (Regex.sub_tags T)).
    exact (split_chars _ _ _ Hv Hx). }
  split; intros Hin; apply H in Hin; tauto.
Qed.

(** Lengths. *)

Lemma sub_tags_length_fuel (n : nat) (s : pystr) :
  length s <= n ->
  length (Regex.sub_tags s) <= length s /\
  (Regex.sub_tags s = s \/ length (Regex.sub_tags s) < length s).
Proof.
  revert s. induction n as [|n IH]; intros s Hn.
  - destruct s; [|cbn in Hn; lia]. cbn. split; [lia|now left].
  - destruct s as [|c s]; [cbn; split; [lia|now left]|].
    rewrite sub_tags_step.
    destruct (Regex.match_tag (c :: s)) as [rest|] eqn:Hm.
    + apply match_tag_shorter in Hm. cbn [length] in *.
      destruct (IH rest ltac:(lia)) as [Hle _]. split; [lia|right; lia].
    + cbn [length] in *. destruct (IH s ltac:(lia)) as [Hle [Heq|Hlt]].
      * split; [lia|left; now rewrite Heq].
      * split; [lia|right; lia].
Qed.

Lemma sub_tags_length (s : pystr) :
  length (Regex.sub_tags s) <= length s.
Proof. apply (sub_tags_length_fuel (length s)). lia. Qed.

Lemma sub_tags_changes_shrink (s : pystr) :
  Regex.sub_tags s <> s -> length (Regex.sub_tags s) < length s.
Proof.
  intros Hne. destruct (sub_tags_length_fuel (length s) s) as [_ [H|H]];
    [lia|contradiction|exact H].
Qed.

Lemma persian_letters_length (s : pystr) :
  length (persian_letters s) = length s.
Proof. unfold persian_letters, replace_char. now rewrite !length_map. Qed.

Lemma join_push_word_length (v : pystr) (ws : list pystr) :
  length (join [SPACE] (push_word v ws))
  <= length v + match ws with
                | [] => 0
                | _ :: _ => 1 + length (join [SPACE] ws)
                end.
Proof.
  destruct v as [|c v]; cbn [push_word].
  - destruct ws as [|p l]; [cbn; lia|]. cbn [length]. lia.
  - cbn [join]. destruct ws; [lia|].
    rewrite !length_app. cbn [length]. lia.
Qed.

Lemma words_length (s : pystr) :
  length (fst (words s))
  + match snd (words s) with
    | [] => 0
    | _ :: _ => 1 + length (join [SPACE] (snd (words s)))
    end
  <= length s.
Proof.
  induction s as [|c s IH]; [cbn; lia|].
  cbn [words]. destruct (words s) as [v ws]. cbn [fst snd] in *.
  destruct (isspace c); cbn [fst snd length].
  - pose proof (join_push_word_length v ws) as H.
    destruct (push_word v ws); lia.
  - lia.
Qed.

Lemma join_split_length (s : pystr) :
  length (join [SPACE] (split s)) <= length s.
Proof.
  unfold split. pose proof (words_length s) as H.
  destruct (words s) as [v ws]. cbn [fst snd] in H.
  pose proof (join_push_word_length v ws). lia.
Qed.

(** X4.  Normalising never makes a text longer. *)
Theorem clean_text_not_longer (T : pystr) :
  length (_clean_text T) <= length T.
Proof.
  rewrite clean_text_passes.
  pose proof (join_split_length (persian_letters (Regex.sub_tags T))) as H.
  rewrite persian_letters_length in H.
  pose proof (sub_tags_length T). lia.
Qed.

(** The tag-removing pass leaves a text as it is exactly when the text
    holds no tag. *)
Lemma has_tag_matches (s : pystr) :
  has_tag s = true <->
  exists before rest after,
    s = before ++ rest /\ Regex.match_tag rest = Some after.
Proof.
  induction s as [|c s IH].
  - split; [discriminate|]. intros (before & rest & after & E & Hm).
    symmetry in E. apply app_eq_nil in E as [_ ->]. discriminate.
  - cbn [has_tag]. destruct (Regex.match_tag (c :: s)) as [after|] eqn:Hm.
    + split; [|reflexivity]. intros _. exists [], (c :: s), after.
      now split.
    + rewrite IH. split.
      * intros (before & rest & after & -> & Hr).
        exists (c :: before), rest, after. now split.
      * intros (before & rest & after & E & Hr).
        destruct before as [|b before]; cbn [app] in E.
        -- subst rest. congruence.
        -- injection E as _ ->. now exists before, rest, after.
Qed.

Lemma sub_tags_fixed_iff (s : pystr) :
  Regex.sub_tags s = s <-> has_tag s = false.
Proof.
  induction s as [|c s IH]; [now split|].
  rewrite sub_tags_step. cbn [has_tag].
  destruct (Regex.match_tag (c :: s)) as [rest|] eqn:Hm.
  - split; [|discriminate]. intros E. exfalso.
    apply match_tag_shorter in Hm. pose proof (sub_tags_length rest) as H.
    rewrite E in H. lia.
  - rewrite <- IH. split; [now intros [= E]|intros E; now rewrite E].
Qed.

(** A normalised text that is a fixed point has no tag left in it: a pass
    that removes a tag makes the text shorter. *)
Lemma clean_text_fixed_only_when_tagless (T : pystr) :
  _clean_text (_clean_text T) = _clean_text T ->
  Regex.sub_tags (_clean_text T) = _clean_text T.
Proof.
  intros Hfix.
  destruct (list_eq_dec N.eq_dec (Regex.sub_tags (_clean_text T))
                        (_clean_text T)) as [E|Hne]; [exact E|].
  exfalso. apply sub_tags_changes_shrink in Hne.
  pose proof (f_equal (@length _) Hfix) as Hlen.
  rewrite (clean_text_passes (_clean_text T)) in Hlen.
  pose proof (join_split_length
                (persian_letters (Regex.sub_tags (_clean_text T)))) as H.
  rewrite persian_letters_length in H. lia.
Qed.

(** C4 (amended).  For every text [T], normalising the normalised text
    gives it back exactly when no tag is left in it, that is, when the
    pattern [<[^<]+?>] matches at no position of [_clean_text T]. *)
Theorem clean_text_idempotent (T : pystr) :
  _clean_text (_clean_text T) = _clean_text T
  <-> has_tag (_clean_text T) = false.
Proof.
  rewrite <- sub_tags_fixed_iff.
  split;
    [apply clean_text_fixed_only_when_tagless
    |apply clean_text_fixed_when_tagless].
Qed.

(** A '<' that opens no tag does not stand in the way: ["a < b"] keeps its
    '<' and is normalised to itself, while the text left of ["<<a>b>"]
    holds a tag. *)
Example clean_text_lone_angle_bracket :
  In Regex.LT (_clean_text (ustr "a < b")) /\
  has_tag (_clean_text (ustr "a < b")) = false /\
  _clean_text (_clean_text (ustr "a < b")) = _clean_text (ustr "a < b") /\
  has_tag (_clean_text (ustr "<<a>b>")) = true.
Proof.
  split; [vm_compute; repeat (first [left; reflexivity | right])|].
  vm_compute. repeat split.
Qed.

(** X5.  Normalising twice gives the same text as normalising once exactly
    when the normalised text holds no tag, that is, when the tag-removing
    pass leaves it as it is. *)
Theorem clean_text_idempotent_iff (T : pystr) :
  _clean_text (_clean_text T) = _clean_text T
  <-> Regex.sub_tags (_clean_text T) = _clean_text T.
Proof.
  split;
    [apply clean_text_fixed_only_when_tagless
    |apply clean_text_fixed_when_tagless].
Qed.

(** X6.  A text of whitespace only is normalised to the empty text. *)
Theorem clean_text_blank (T : pystr) :
  forallb isspace T = true -> _clean_text T = [].
Proof.
  intros Hsp. rewrite clean_text_passes.
  assert (Hall : forall c, In c T -> isspace c = true)
    by (now apply forallb_forall).
  rewrite sub_tags_no_lt
    by (intros Hin; apply Hall in Hin; discriminate).
  rewrite persian_letters_fixed
    by (intros x Hx; apply Hall in Hx; split; intros ->; discriminate).
  assert (Hw : words T = ([], [])).
  { clear Hsp. induction T as [|c T IH]; [reflexivity|].
    cbn [words]. rewrite IH by (intros x Hx; apply Hall; now right).
    rewrite (Hall c) by now left. reflexivity. }
  unfold split. now rewrite Hw.
Qed.

Lemma clean_text_blank_witness : _clean_text [SPACE; 10; 9; 160]%N = [].
Proof. apply (clean_text_blank [SPACE; 10; 9; 160]%N). reflexivity. Defined.

(* ================================================================== *)
(** * More on the date formatter and the fetcher *)

Lemma formatted_date_nonempty (w : World) (date_str : pystr) :
  formatted_date w date_str <> [].
Proof.
  unfold formatted_date, _format_date. destruct date_str as [|c s].
  - discriminate.
  - cbn [truthy negb].
    destruct (parsedate_to_datetime w (c :: s)) as [[dt|]|e];
      cbn [bind try_except]; try discriminate.
    destruct (getitem persian_months (month dt - 1)) as [name|e];
      cbn [bind try_except]; [|discriminate].
    rewrite <- !app_assoc. intros E.
    apply app_eq_nil in E as [_ E]. discriminate.
Qed.

(** X7.  The date shown for an item is never the empty string, whatever
    the raw date and whatever the date parser does. *)
Theorem format_date_never_empty (w : World) (date_str : pystr) :
  exists out, _format_date w date_str = Ok out /\ out <> [].
Proof.
  exists (formatted_date w date_str).
  split; [apply format_date_returns|apply formatted_date_nonempty].
Qed.

Lemma clean_text_no_double_space (T : pystr) :
  has_double_space (_clean_text T) = false.
Proof.
  rewrite clean_text_passes. apply join_single_spaced, split_words.
Qed.

Lemma source_items_length (w : World) (source_name feed_url : pystr) :
  length (source_items w source_name feed_url) <= 10.
Proof.
  unfold source_items.
  destruct (session_get w feed_url) as [response|]; [|cbn; lia].
  destruct (status response =? 200)%Z; [|cbn; lia].
  destruct (text response) as [content|]; [|cbn; lia].
  destruct (feedparser_parse w content) as [feed|]; [|cbn; lia].
  rewrite length_map.
  pose proof (filter_length_le entry_ok (firstn 10 (entries feed))).
  pose proof (firstn_le_length 10 (entries feed)). lia.
Qed.

(** X8.  A fetch returns at most ten items.  Each carries the name of the
    source, a title and a link that are not empty, a date string that is
    not empty, and a title and a description without two spaces in a
    row. *)
Theorem fetch_feed_items (w : World) (source_name feed_url : pystr) :
  exists items,
    _fetch_feed w source_name feed_url = Ok items /\
    length items <= 10 /\
    forall item, In item items ->
      source item = source_name /\
      title item <> [] /\ link item <> [] /\ published item <> [] /\
      has_double_space (title item) = false /\
      has_double_space (description item) = false.
Proof.
  exists (source_items w source_name feed_url).
  split; [apply fetch_feed_returns|]. split; [apply source_items_length|].
  intros item Hin.
  destruct (source_items_valid w _ _ _ Hin) as [Ht Hl].
  unfold source_items in Hin.
  destruct (session_get w feed_url) as [response|]; [|contradiction].
  destruct (status response =? 200)%Z; [|contradiction].
  destruct (text response) as [content|]; [|contradiction].
  destruct (feedparser_parse w content) as [feed|]; [|contradiction].
  apply in_map_iff in Hin as [e [<- _]].
  split; [reflexivity|]. split; [exact Ht|]. split; [exact Hl|].
  cbn [item_of published title description]. split; [|split].
  - apply formatted_date_nonempty.
  - apply clean_text_no_double_space.
  - apply clean_text_no_double_space.
Qed.

(* ================================================================== *)
(** * More on sorting *)

Section SortFilter.
Variables (A K : Type) (key : A -> K) (ltb : K -> K -> bool).
Variable p : A -> bool.
Hypothesis ltb_asym :
  forall a b, ltb a b = true -> ltb b a = false.
Hypothesis ltb_negtrans :
  forall a b c, ltb a c = true -> ltb a b = true \/ ltb b c = true.

Lemma insert_front (x : A) (l : list A) :
  Forall (fun z => ltb (key z) (key x) = false) l ->
  insert key ltb x l = x :: l.
Proof.
  destruct l as [|y l]; [reflexivity|]. intros H.
  inversion H as [|? ? Hy _]; subst. cbn [insert]. now rewrite Hy.
Qed.

(** Inserting into a sorted list and filtering is filtering and, for an
    element that passes, inserting. *)
Lemma filter_insert_sorted (x : A) (l : list A) :
  StronglySorted (ascending key ltb) l ->
  filter p (insert key ltb x l)
  = if p x then insert key ltb x (filter p l) else filter p l.
Proof.
  induction 1 as [|y l Hl IH Hy]; cbn [insert filter].
  - now destruct (p x).
  - destruct (ltb (key y) (key x)) eqn:Hyx; cbn [filter].
    + rewrite IH. destruct (p y), (p x); try reflexivity.
      cbn [insert]. now rewrite Hyx.
    + destruct (p x); [|reflexivity].
      symmetry. apply insert_front.
      assert (Hall : Forall (fun z => ltb (key z) (key x) = false) (y :: l)).
      { constructor; [exact Hyx|].
        rewrite Forall_forall in *. intros z Hz. specialize (Hy z Hz).
        unfold ascending in Hy.
        destruct (ltb (key z) (key x)) eqn:Hzx; [|reflexivity].
        destruct (ltb_negtrans _ (key y) _ Hzx) as [E|E]; congruence. }
      rewrite Forall_forall in *. intros z Hz. apply Hall.
      change (In z (filter p (y :: l))) in Hz.
      now apply filter_In in Hz as [Hz _].
Qed.

Lemma filter_sort_ascending_commute (l : list A) :
  filter p (sort_ascending key ltb l) = sort_ascending key ltb (filter p l).
Proof.
  induction l as [|x l IH]; [reflexivity|].
  cbn [sort_ascending fold_right filter].
  fold (sort_ascending key ltb l).
  rewrite filter_insert_sorted
    by (apply sort_ascending_sorted; assumption).
  rewrite IH. now destruct (p x).
Qed.

(** Sorting and filtering commute. *)
Lemma filter_list_sort_commute (reverse : bool) (l : list A) :
  filter p (list_sort key ltb reverse l)
  = list_sort key ltb reverse (filter p l).
Proof.
  destruct reverse; cbn [list_sort]; [|apply filter_sort_ascending_commute].
  now rewrite filter_rev, filter_sort_ascending_commute, filter_rev.
Qed.
End SortFilter.

Lemma sorted_filter {A} (R : A -> A -> Prop) (p : A -> bool) (l : list A) :
  StronglySorted R l -> StronglySorted R (filter p l).
Proof.
  induction 1 as [|x l Hl IH Hx]; cbn [filter]; [constructor|].
  destruct (p x); [|exact IH]. constructor; [exact IH|].
  rewrite Forall_forall in *. intros z Hz.
  apply filter_In in Hz as [Hz _]. now apply Hx.
Qed.

Lemma sorted_firstn {A} (R : A -> A -> Prop) (n : nat) (l : list A) :
  StronglySorted R l -> StronglySorted R (firstn n l).
Proof.
  intros H. revert n. induction H as [|x l Hl IH Hx]; intros [|n];
    cbn [firstn]; try constructor.
  - apply IH.
  - rewrite Forall_forall in *. intros z Hz. apply Hx.
    now apply firstn_in in Hz.
Qed.

Lemma filter_ranking (p : NewsItem -> bool) (l : list NewsItem) :
  filter p (ranking l) = ranking (filter p l).
Proof.
  apply filter_list_sort_commute;
    [exact time_ltb_asym | exact time_ltb_negtrans].
Qed.

Lemma comparable_filter (p : NewsItem -> bool) (l : list NewsItem) :
  comparable l = true -> comparable (filter p l) = true.
Proof.
  unfold comparable. rewrite !orb_true_iff, !Nat.leb_le, !forallb_forall.
  intros [Hshort|Hdated].
  - left. pose proof (filter_length_le p l). lia.
  - right. intros x Hx. apply filter_In in Hx as [Hx _]. now apply Hdated.
Qed.

Lemma filter_sorted_or_dropped (p : NewsItem -> bool) (l : list NewsItem) :
  comparable l = true ->
  filter p (sorted_or_dropped l) = sorted_or_dropped (filter p l).
Proof.
  intros Hl. unfold sorted_or_dropped.
  rewrite Hl, (comparable_filter p l Hl). apply filter_ranking.
Qed.

Lemma sorted_or_dropped_comparable (l : list NewsItem) :
  comparable l = true ->
  sorted_or_dropped l = ranking l /\
  length (sorted_or_dropped l) = length l.
Proof.
  intros Hl. unfold sorted_or_dropped. rewrite Hl.
  split; [reflexivity|apply ranking_length].
Qed.

Lemma merged_length (w : World) : length (merged w) <= 50.
Proof.
  unfold merged, rss_feeds. cbn [flat_map]. rewrite !length_app.
  cbn [length].
  repeat match goal with
         | |- context [length (source_items w ?n ?u)] =>
             let H := fresh "H" in
             pose proof (source_items_length w n u) as H;
             generalize dependent (length (source_items w n u)); intros
         end.
  lia.
Qed.

Lemma collect_matches (matches : NewsItem -> bool) (limit : Z)
    (all_news acc : list NewsItem) (x : NewsItem) :
  In x (collect matches limit acc all_news) ->
  In x acc \/ (In x all_news /\ matches x = true).
Proof.
  revert acc. induction all_news as [|y l IH]; intros acc; cbn [collect];
    [now left|].
  destruct (matches y) eqn:Hy.
  - destruct (Z.of_nat (length (acc ++ [y])) >=? limit)%Z; intros H.
    + apply in_app_or in H as [H|[<-|[]]]; [now left|].
      right. split; [now left|exact Hy].
    + apply IH in H as [H|[H Hm]]; [|right; split; [now right|exact Hm]].
      apply in_app_or in H as [H|[<-|[]]]; [now left|].
      right. split; [now left|exact Hy].
  - destruct (Z.of_nat (length acc) >=? limit)%Z; intros H; [now left|].
    apply IH in H as [H|[H Hm]]; [now left|].
    right. split; [now right|exact Hm].
Qed.

(* ================================================================== *)
(** * More on the aggregator *)

(** X9.  For a limit of zero or more, [get_latest_news] returns [limit]
    items, or all the merged items when there are fewer, provided its sort
    compares no [None]: there is one merged item at most, or every merged
    item is dated.  Otherwise it returns no item.  There are never more
    than fifty merged items (ten for each of the five sources). *)
Theorem get_latest_news_count (w : World) (limit : Z) :
  (0 <= limit)%Z ->
  exists out,
    get_latest_news w limit = Ok out /\
    length out
    = (if comparable (merged w)
       then Nat.min (Z.to_nat limit) (length (merged w))
       else 0) /\
    length (merged w) <= 50.
Proof.
  intros Hl. eexists. split; [apply get_latest_news_returns|].
  rewrite slice_to_firstn by exact Hl.
  rewrite length_firstn. split; [|apply merged_length].
  unfold sorted_or_dropped. destruct (comparable (merged w)).
  - now rewrite ranking_length.
  - cbn [length]. lia.
Qed.

Lemma get_latest_news_count_witness :
  exists out,
    get_latest_news Sample.world 3 = Ok out /\
    length out
    = (if comparable (merged Sample.world)
       then Nat.min (Z.to_nat 3) (length (merged Sample.world))
       else 0) /\
    length (merged Sample.world) <= 50.
Proof. apply (get_latest_news_count Sample.world 3). lia. Defined.

(** X10.  A smaller limit gives a prefix of what a larger limit gives:
    for [0 <= small <= large], [get_latest_news small] is the first [small]
    items of [get_latest_news large]. *)
Theorem get_latest_news_prefix (w : World) (small large : Z) :
  (0 <= small <= large)%Z ->
  exists out,
    get_latest_news w large = Ok out /\
    get_latest_news w small = Ok (firstn (Z.to_nat small) out).
Proof.
  intros Hl. eexists. split; [apply get_latest_news_returns|].
  rewrite get_latest_news_returns, !slice_to_firstn by lia.
  rewrite firstn_firstn. do 2 f_equal. lia.
Qed.

Lemma get_latest_news_prefix_witness :
  exists out,
    get_latest_news Sample.world 4 = Ok out /\
    get_latest_news Sample.world 2 = Ok (firstn (Z.to_nat 2) out).
Proof. apply (get_latest_news_prefix Sample.world 2 4). lia. Defined.

(** X11.  A negative limit is a slice bound counted from the end.  With
    [ranked] the whole ranking and [limit < 0], [get_latest_news] drops the
    [-limit] oldest items, and [get_news_by_category] with an unknown
    category drops four times as many. *)
Theorem negative_limit_drops_oldest (w : World) (limit : Z)
    (category : pystr) :
  (limit < 0)%Z ->
  ~ In category (map fst category_keywords) ->
  exists ranked,
    get_latest_news w (Z.of_nat (length (merged w))) = Ok ranked /\
    get_latest_news w limit
    = Ok (firstn (length ranked - Z.to_nat (- limit)) ranked) /\
    get_news_by_category w category limit
    = Ok (firstn (length ranked - 4 * Z.to_nat (- limit)) ranked).
Proof.
  intros Hl Hkey. exists (sorted_or_dropped (merged w)).
  rewrite get_news_by_category_returns, !get_latest_news_returns.
  cbv zeta. rewrite (dict_lookup_missing _ _ Hkey).
  set (ranked := sorted_or_dropped (merged w)).
  assert (Hlen : length ranked <= length (merged w))
    by apply sorted_or_dropped_length.
  split; [|split].
  - rewrite slice_to_firstn by lia. rewrite Nat2Z.id.
    now apply f_equal, firstn_short.
  - unfold slice_to. destruct (Z.ltb_spec limit 0); [|lia].
    do 2 f_equal. lia.
  - unfold slice_to.
    destruct (Z.ltb_spec limit 0); [|lia].
    destruct (Z.ltb_spec (limit * 3) 0); [|lia].
    rewrite length_firstn, firstn_firstn. do 2 f_equal. lia.
Qed.

Lemma negative_limit_drops_oldest_witness :
  exists ranked,
    get_latest_news Sample.world (Z.of_nat (length (merged Sample.world)))
    = Ok ranked /\
    get_latest_news Sample.world (-1)
    = Ok (firstn (length ranked - Z.to_nat (- -1)) ranked) /\
    get_news_by_category Sample.world (ustr "chess") (-1)
    = Ok (firstn (length ranked - 4 * Z.to_nat (- -1)) ranked).
Proof.
  apply (negative_limit_drops_oldest Sample.world (-1) (ustr "chess")).
  - lia.
  - cbn. intuition discriminate.
Defined.

(** X12.  With a limit of zero the three operations return the empty
    list, and [get_esteghlal_news] does so for every limit below one. *)
Theorem zero_limit_returns_nothing (w : World) (category : pystr) :
  get_latest_news w 0 = Ok [] /\
  get_news_by_category w category 0 = Ok [] /\
  forall limit, (limit <= 0)%Z -> get_esteghlal_news w limit = Ok [].
Proof.
  rewrite get_news_by_category_returns, get_latest_news_returns.
  cbv zeta. change (0 * 3)%Z with 0%Z.
  change (slice_to 0 (sorted_or_dropped (merged w))) with (@nil NewsItem).
  split; [reflexivity|]. split.
  - now destruct (dict_lookup category category_keywords).
  - intros limit Hl. rewrite get_esteghlal_news_returns. f_equal.
    pose proof (collect_no_limit (mentions_esteghlal w) limit (merged w) Hl)
      as Hlen.
    pose proof (sorted_or_dropped_length
                  (collect (mentions_esteghlal w) limit [] (merged w)))
      as Hsorted.
    unfold slice_to. destruct (Z.ltb_spec limit 0).
    + replace (Z.to_nat _) with 0 by lia. reflexivity.
    + replace (Z.to_nat limit) with 0 by lia. reflexivity.
Qed.

(** X13.  For a known category and a limit of one or more,
    [get_news_by_category] returns the first [limit] items, among the
    [3 * limit] newest, that mention a keyword of the category; they come
    out newest first. *)
Theorem category_news_first_matches (w : World) (category : pystr)
    (keywords : list pystr) (limit : Z) :
  dict_lookup category category_keywords = Some keywords ->
  (0 < limit)%Z ->
  exists latest out,
    get_latest_news w (limit * 3) = Ok latest /\
    get_news_by_category w category limit = Ok out /\
    out = firstn (Z.to_nat limit) (filter (mentions_any w keywords) latest) /\
    StronglySorted newest_first out.
Proof.
  intros Hkey Hl.
  exists (slice_to (limit * 3) (sorted_or_dropped (merged w))).
  eexists. split; [apply get_latest_news_returns|].
  split; [apply get_news_by_category_returns|].
  cbv zeta. rewrite Hkey. rewrite collect_first_matches by exact Hl.
  split; [reflexivity|].
  apply sorted_firstn, sorted_filter.
  rewrite slice_to_firstn by lia.
  apply sorted_firstn, sorted_or_dropped_sorted.
Qed.

Lemma category_news_first_matches_witness :
  exists latest out,
    get_latest_news Sample.world (2 * 3) = Ok latest /\
    get_news_by_category Sample.world (ustr "football") 2 = Ok out /\
    out = firstn (Z.to_nat 2)
            (filter (mentions_any Sample.world football_keywords) latest) /\
    StronglySorted newest_first out.
Proof.
  apply (category_news_first_matches Sample.world (ustr "football")
           football_keywords 2); [reflexivity|lia].
Defined.

(** X14.  When the merged items can be sorted (there is one at most, or
    every one is dated) and no more than [limit] of them mention the
    keyword, [get_esteghlal_news] returns exactly the items of the whole
    ranking that mention it, in the order of the ranking. *)
Theorem esteghlal_news_is_filtered_ranking (w : World) (limit : Z) :
  comparable (merged w) = true ->
  (Z.of_nat (length (filter (mentions_esteghlal w) (merged w))) <= limit)%Z ->
  exists ranked,
    get_latest_news w (Z.of_nat (length (merged w))) = Ok ranked /\
    get_esteghlal_news w limit
    = Ok (filter (mentions_esteghlal w) ranked).
Proof.
  intros Hdated Hcount. exists (sorted_or_dropped (merged w)).
  rewrite get_latest_news_returns, get_esteghlal_news_returns.
  split.
  - rewrite slice_to_firstn by lia. rewrite Nat2Z.id.
    apply f_equal, firstn_short, sorted_or_dropped_length.
  - f_equal. rewrite (filter_sorted_or_dropped _ _ Hdated).
    set (found := filter (mentions_esteghlal w) (merged w)) in *.
    pose proof (sorted_or_dropped_length found) as Hfound.
    destruct (Z.ltb_spec 0 limit) as [Hpos|Hzero].
    + rewrite collect_first_matches by exact Hpos. fold found.
      rewrite (firstn_short (Z.to_nat limit) found) by lia.
      rewrite slice_to_firstn by lia.
      apply firstn_short. lia.
    + assert (Hnil : found = []) by (destruct found; [reflexivity|cbn in *; lia]).
      rewrite Hnil.
      pose proof (collect_no_limit (mentions_esteghlal w) limit (merged w)
                    Hzero) as Hlen.
      pose proof (sorted_or_dropped_length
                    (collect (mentions_esteghlal w) limit [] (merged w)))
        as Hsorted.
      change (sorted_or_dropped []) with (@nil NewsItem).
      unfold slice_to. destruct (Z.ltb_spec limit 0).
      * replace (Z.to_nat _) with 0 by lia. reflexivity.
      * replace (Z.to_nat limit) with 0 by lia. reflexivity.
Qed.

Lemma esteghlal_news_is_filtered_ranking_witness :
  exists ranked,
    get_latest_news Sample.world (Z.of_nat (length (merged Sample.world)))
    = Ok ranked /\
    get_esteghlal_news Sample.world 5
    = Ok (filter (mentions_esteghlal Sample.world) ranked).
Proof.
  apply (esteghlal_news_is_filtered_ranking Sample.world 5).
  - vm_compute. reflexivity.
  - vm_compute. discriminate.
Defined.

(** X15.  Every item [get_esteghlal_news] returns also passes the filter
    of the category "football": the keyword is one of its keywords. *)
Theorem esteghlal_news_is_football (w : World) (limit : Z) :
  exists out,
    get_esteghlal_news w limit = Ok out /\
    dict_lookup (ustr "football") category_keywords = Some football_keywords /\
    forall item, In item out ->
      mentions_any w football_keywords item = true.
Proof.
  eexists. split; [apply get_esteghlal_news_returns|].
  split; [reflexivity|]. intros item Hin.
  apply slice_to_incl, sorted_incl, collect_matches in Hin
    as [[]|[_ Hm]].
  unfold mentions_any. apply existsb_exists. exists ESTEGHLAL.
  split; [cbn; tauto|exact Hm].
Qed.

(** X25.  When the sort compares no [None] (there is one merged item at
    most, or every merged item is dated) and [limit] is zero or more,
    [get_latest_news] returns the first [limit] items of a ranking of the
    merged items: the ranking holds exactly the merged items, each of them
    from a source that did not fail, it is newest first, and items with the
    same [published_parsed] stand in their merge order. *)
Theorem get_latest_news_ranked_when_dated (w : World) (limit : Z) :
  (0 <= limit)%Z ->
  comparable (merged w) = true ->
  exists ranked,
    get_latest_news w limit = Ok (firstn (Z.to_nat limit) ranked) /\
    merge_results (fetch_all w) [] = merged w /\
    Permutation ranked (merged w) /\
    (forall item, In item ranked ->
       exists feed, In feed rss_feeds /\ source item = fst feed /\
                    ~ source_fails w (snd feed)) /\
    StronglySorted newest_first ranked /\
    forall k, filter (published_at k) ranked
              = filter (published_at k) (merged w).
Proof.
  intros Hl Hdated. exists (ranking (merged w)).
  destruct (sorted_or_dropped_comparable _ Hdated) as [Hsort _].
  rewrite get_latest_news_returns, slice_to_firstn, Hsort by exact Hl.
  split; [reflexivity|]. split; [apply merge_fetch_all|].
  split; [apply ranking_perm|]. split; [|split].
  - intros item Hin. apply merged_from_surviving_source.
    exact (Permutation_in _ (ranking_perm _) Hin).
  - rewrite <- Hsort. apply sorted_or_dropped_sorted.
  - intros k. apply ranking_stable.
Qed.

Lemma get_latest_news_ranked_when_dated_witness :
  exists ranked,
    get_latest_news Sample.world 3 = Ok (firstn (Z.to_nat 3) ranked) /\
    merge_results (fetch_all Sample.world) [] = merged Sample.world /\
    Permutation ranked (merged Sample.world) /\
    (forall item, In item ranked ->
       exists feed, In feed rss_feeds /\ source item = fst feed /\
                    ~ source_fails Sample.world (snd feed)) /\
    StronglySorted newest_first ranked /\
    forall k, filter (published_at k) ranked
              = filter (published_at k) (merged Sample.world).
Proof.
  apply (get_latest_news_ranked_when_dated Sample.world 3);
    [lia|vm_compute; reflexivity].
Defined.

(** X26.  When the sort of the collected items compares no [None],
    [get_esteghlal_news] returns, newest first and with items of the same
    [published_parsed] in their merge order, the first [limit] merged items
    that mention the keyword.  An item mentions the keyword exactly when
    its lower-cased title or description holds it as a substring. *)
Theorem esteghlal_news_sorted_when_dated (w : World) (limit : Z) :
  comparable
    (firstn (Z.to_nat limit) (filter (mentions_esteghlal w) (merged w)))
  = true ->
  exists out,
    get_esteghlal_news w limit = Ok out /\
    StronglySorted newest_first out /\
    Permutation out
      (firstn (Z.to_nat limit) (filter (mentions_esteghlal w) (merged w))) /\
    (forall k,
       filter (published_at k) out
       = filter (published_at k)
           (firstn (Z.to_nat limit)
              (filter (mentions_esteghlal w) (merged w)))) /\
    forall item,
      mentions_esteghlal w item = true <->
      substring ESTEGHLAL (lower w (title item)) \/
      substring ESTEGHLAL (lower w (description item)).
Proof.
  intros Hdated.
  set (found := firstn (Z.to_nat limit)
                  (filter (mentions_esteghlal w) (merged w))) in *.
  assert (Hout : get_esteghlal_news w limit = Ok (ranking found)).
  { rewrite get_esteghlal_news_returns. f_equal.
    destruct (Z.ltb_spec 0 limit) as [Hpos|Hneg].
    - rewrite collect_first_matches by exact Hpos. fold found.
      destruct (sorted_or_dropped_comparable _ Hdated) as [-> _].
      rewrite slice_to_firstn by lia. apply firstn_short.
      rewrite ranking_length. unfold found. rewrite length_firstn. lia.
    - unfold found. replace (Z.to_nat limit) with 0 by lia.
      change (ranking (firstn 0 _)) with (@nil NewsItem).
      pose proof (collect_no_limit (mentions_esteghlal w) limit (merged w)
                    Hneg) as Hlen.
      pose proof (sorted_or_dropped_length
                    (collect (mentions_esteghlal w) limit [] (merged w)))
        as Hsorted.
      unfold slice_to. destruct (Z.ltb_spec limit 0).
      + replace (Z.to_nat _) with 0 by lia. reflexivity.
      + replace (Z.to_nat limit) with 0 by lia. reflexivity. }
  exists (ranking found). split; [exact Hout|].
  split; [|split; [apply ranking_perm|split; [intros k; apply ranking_stable|]]].
  - destruct (sorted_or_dropped_comparable _ Hdated) as [<- _].
    apply sorted_or_dropped_sorted.
  - intros item. unfold mentions_esteghlal. cbv zeta.
    now rewrite orb_true_iff, !str_in_iff.
Qed.

Lemma esteghlal_news_sorted_when_dated_witness :
  exists out,
    get_esteghlal_news Sample.world 5 = Ok out /\
    StronglySorted newest_first out /\
    Permutation out
      (firstn (Z.to_nat 5)
         (filter (mentions_esteghlal Sample.world) (merged Sample.world))) /\
    (forall k,
       filter (published_at k) out
       = filter (published_at k)
           (firstn (Z.to_nat 5)
              (filter (mentions_esteghlal Sample.world)
                 (merged Sample.world)))) /\
    forall item,
      mentions_esteghlal Sample.world item = true <->
      substring ESTEGHLAL (lower Sample.world (title item)) \/
      substring ESTEGHLAL (lower Sample.world (description item)).
Proof.
  apply (esteghlal_news_sorted_when_dated Sample.world 5).
  vm_compute. reflexivity.
Defined.

(* ================================================================== *)
(** * The start-up configuration *)

Lemma config_init_credentials (os : Os) (cfg : Config) :
  Config_init os = Ok cfg ->
  falsy (TELEGRAM_BOT_TOKEN cfg) = false /\
  falsy (OPENAI_API_KEY cfg) = false.
Proof.
  unfold Config_init.
  destruct (falsy (getenv os (ustr "TELEGRAM_BOT_TOKEN"))) eqn:Htoken;
    [discriminate|].
  destruct (falsy (getenv os (ustr "OPENAI_API_KEY"))) eqn:Hkey;
    [discriminate|].
  destruct (int_of_str os _); cbn [bind]; [|discriminate].
  destruct (int_of_str os _); cbn [bind]; [|discriminate].
  destruct (int_of_str os _); cbn [bind]; [|discriminate].
  destruct (int_of_str os _); cbn [bind]; [|discriminate].
  intros [= <-]. cbn. now split.
Qed.

(** X16.  A configuration that [Config()] returns has both credentials
    set and not empty, and [validate_config] accepts it: it returns [True]
    and does not raise. *)
Theorem constructed_config_is_valid (os : Os) (cfg : Config) :
  Config_init os = Ok cfg ->
  falsy (TELEGRAM_BOT_TOKEN cfg) = false /\
  falsy (OPENAI_API_KEY cfg) = false /\
  validate_config cfg = Ok true.
Proof.
  intros Hinit. destruct (config_init_credentials os cfg Hinit) as [Ht Hk].
  split; [exact Ht|]. split; [exact Hk|].
  unfold validate_config, required_vars. cbn [missing_vars_loop].
  now rewrite Ht, Hk.
Qed.

Lemma constructed_config_is_valid_witness :
  exists cfg,
    Config_init SampleBot.os = Ok cfg /\
    falsy (TELEGRAM_BOT_TOKEN cfg) = false /\
    falsy (OPENAI_API_KEY cfg) = false /\
    validate_config cfg = Ok true.
Proof.
  eexists. split; [vm_compute; reflexivity|].
  apply (constructed_config_is_valid SampleBot.os). vm_compute. reflexivity.
Defined.

(** X17.  The feed parser cannot be built without the two credentials,
    which it never reads afterwards: [RSSParser()] raises [ValueError] when
    the bot token or the API key is unset or empty.  It returns a parser
    exactly when both are set and the four numeric settings (or their
    defaults) are accepted by [int]. *)
Theorem rss_parser_needs_credentials (os : Os) :
  (falsy (getenv os (ustr "TELEGRAM_BOT_TOKEN")) = true \/
   falsy (getenv os (ustr "OPENAI_API_KEY")) = true ->
   RSSParser_init os = Raise ValueError) /\
  ((exists parser, RSSParser_init os = Ok parser) <->
   falsy (getenv os (ustr "TELEGRAM_BOT_TOKEN")) = false /\
   falsy (getenv os (ustr "OPENAI_API_KEY")) = false /\
   (exists n, int_of_str os
       (get (getenv os (ustr "MAX_NEWS_PER_REQUEST")) (ustr "5")) = Ok n) /\
   (exists n, int_of_str os
       (get (getenv os (ustr "CACHE_TIMEOUT")) (ustr "300")) = Ok n) /\
   (exists n, int_of_str os
       (get (getenv os (ustr "FEED_REFRESH_INTERVAL")) (ustr "600")) = Ok n) /\
   (exists n, int_of_str os
       (get (getenv os (ustr "REQUEST_TIMEOUT")) (ustr "10")) = Ok n)).
Proof.
  unfold RSSParser_init, Config_init.
  destruct (falsy (getenv os (ustr "TELEGRAM_BOT_TOKEN"))) eqn:Htoken.
  { split; [reflexivity|]. split.
    - intros [parser H]. discriminate.
    - intros [H _]. discriminate. }
  destruct (falsy (getenv os (ustr "OPENAI_API_KEY"))) eqn:Hkey.
  { split; [reflexivity|]. split.
    - intros [parser H]. discriminate.
    - intros [_ [H _]]. discriminate. }
  split; [intros [H|H]; discriminate|].
  destruct (int_of_str os
              (get (getenv os (ustr "MAX_NEWS_PER_REQUEST")) (ustr "5")))
    as [n1|e1]; cbn [bind].
  2: { split; [intros [parser H]; discriminate|].
       intros (_ & _ & [n H] & _). discriminate. }
  destruct (int_of_str os
              (get (getenv os (ustr "CACHE_TIMEOUT")) (ustr "300")))
    as [n2|e2]; cbn [bind].
  2: { split; [intros [parser H]; discriminate|].
       intros (_ & _ & _ & [n H] & _). discriminate. }
  destruct (int_of_str os
              (get (getenv os (ustr "FEED_REFRESH_INTERVAL")) (ustr "600")))
    as [n3|e3]; cbn [bind].
  2: { split; [intros [parser H]; discriminate|].
       intros (_ & _ & _ & _ & [n H] & _). discriminate. }
  destruct (int_of_str os
              (get (getenv os (ustr "REQUEST_TIMEOUT")) (ustr "10")))
    as [n4|e4]; cbn [bind].
  2: { split; [intros [parser H]; discriminate|].
       intros (_ & _ & _ & _ & _ & [n H]). discriminate. }
  split; [intros _|intros _; eexists; reflexivity].
  repeat split; eexists; reflexivity.
Qed.

Lemma rss_parser_needs_credentials_witness :
  RSSParser_init SampleBot.bare_os = Raise ValueError /\
  exists parser, RSSParser_init SampleBot.os = Ok parser.
Proof.
  split.
  - apply (rss_parser_needs_credentials SampleBot.bare_os). left. reflexivity.
  - apply (rss_parser_needs_credentials SampleBot.os).
    vm_compute. repeat split; eexists; reflexivity.
Defined.

(* ================================================================== *)
(** * The chat layer *)

(** ** Full article text *)

Lemma fetch_full_article_returns (web : Web) (url : pystr) :
  exists out,
    fetch_full_article web url = Ok out /\ out <> [] /\ length out <= 3000.
Proof.
  assert (Hfallback : ARTICLE_UNAVAILABLE <> [] /\
                      length ARTICLE_UNAVAILABLE <= 3000)
    by (split; [discriminate|cbn; lia]).
  unfold fetch_full_article.
  destruct (requests_get web url) as [response|e]; cbn [bind try_except];
    [|now exists ARTICLE_UNAVAILABLE].
  destruct (raise_for_status response) as [[]|e]; cbn [bind try_except];
    [|now exists ARTICLE_UNAVAILABLE].
  destruct (find_all_p web (response_text response)) as [paragraphs|e];
    cbn [bind try_except]; [|now exists ARTICLE_UNAVAILABLE].
  set (text := join [NEWLINE; NEWLINE] _).
  destruct text as [|c text]; cbn [truthy];
    [now exists ARTICLE_UNAVAILABLE|].
  eexists. split; [reflexivity|]. rewrite slice_to_firstn by lia.
  split; [discriminate|apply firstn_le_length].
Qed.

(** X18.  [fetch_full_article] always returns a text; the text is never
    empty and never longer than 3000 characters, whatever the web server
    and the HTML parser do. *)
Theorem full_article_is_bounded (web : Web) (url : pystr) :
  exists out,
    fetch_full_article web url = Ok out /\ out <> [] /\ length out <= 3000.
Proof. apply fetch_full_article_returns. Qed.

(** X19.  A page that cannot be used gives the fixed apology: a failed
    request, a 4xx or 5xx status, and a page without a paragraph of more
    than thirty characters (after trimming). *)
Theorem full_article_fallback (web : Web) (url : pystr) :
  (exists e, requests_get web url = Raise e) \/
  (exists response,
     requests_get web url = Ok response /\
     ((400 <= status_code response < 600)%Z \/
      exists paragraphs,
        find_all_p web (response_text response) = Ok paragraphs /\
        forall p, In p paragraphs -> length (strip p) <= 30)) ->
  fetch_full_article web url = Ok ARTICLE_UNAVAILABLE.
Proof.
  unfold fetch_full_article.
  intros [[e ->]|[response [-> [Hstatus|[paragraphs [Hp Hshort]]]]]];
    cbn [bind try_except]; [reflexivity| |].
  - unfold raise_for_status.
    destruct (Z.leb_spec 400 (status_code response)); [|lia].
    destruct (Z.ltb_spec (status_code response) 600); [|lia].
    reflexivity.
  - destruct (raise_for_status response) as [[]|e]; cbn [bind try_except];
      [|reflexivity].
    rewrite Hp. cbn [bind try_except].
    replace (filter _ paragraphs) with (@nil pystr); [reflexivity|].
    symmetry. clear Hp. induction paragraphs as [|p ps IH]; [reflexivity|].
    cbn [filter].
    destruct (Z.ltb_spec 30 (Z.of_nat (length (strip p)))) as [Hlong|_].
    + specialize (Hshort p (or_introl eq_refl)). lia.
    + apply IH. intros q Hq. apply Hshort. now right.
Qed.

Lemma full_article_fallback_witness :
  fetch_full_article SampleBot.web (ustr "https://a/2")
  = Ok ARTICLE_UNAVAILABLE.
Proof.
  apply (full_article_fallback SampleBot.web (ustr "https://a/2")).
  right. exists (mk_http_response 404 []). split; [reflexivity|].
  left. cbn. lia.
Defined.

(** ** Keys of [user_data] *)

Lemma str_eqb_refl (a : pystr) : str_eqb a a = true.
Proof. now apply str_eqb_eq. Qed.

Lemma str_eqb_neq (a b : pystr) : a <> b -> str_eqb a b = false.
Proof.
  intros Hne. destruct (str_eqb a b) eqn:E; [|reflexivity].
  apply str_eqb_eq in E. contradiction.
Qed.

Lemma dict_lookup_set_same {V} (k : pystr) (v : V) (d : list (pystr * V)) :
  dict_lookup k (dict_set k v d) = Some v.
Proof.
  induction d as [|[k' v'] d IH]; cbn.
  - now rewrite str_eqb_refl.
  - destruct (str_eqb k k') eqn:E; cbn; [now rewrite str_eqb_refl|].
    now rewrite E.
Qed.

Lemma dict_lookup_set_other {V} (k k' : pystr) (v : V)
    (d : list (pystr * V)) :
  k' <> k -> dict_lookup k' (dict_set k v d) = dict_lookup k' d.
Proof.
  intros Hne. induction d as [|[k0 v0] d IH]; cbn.
  - now rewrite (str_eqb_neq _ _ Hne).
  - destruct (str_eqb k k0) eqn:E; cbn.
    + apply str_eqb_eq in E. subst k0.
      now rewrite (str_eqb_neq _ _ Hne).
    + destruct (str_eqb k' k0); [reflexivity|exact IH].
Qed.

Lemma digits_inj (u v : Decimal.uint) : digits u = digits v -> u = v.
Proof.
  revert v. induction u; intros v; destruct v; cbn; try discriminate;
    try reflexivity; intros [= H]; f_equal; auto.
Qed.

Lemma digits_ascii (u : Decimal.uint) :
  forallb is_ascii_digit (digits u) = true.
Proof. induction u; cbn; auto. Qed.

Lemma digits_nonempty (n : N) : digits (N.to_uint n) <> [].
Proof.
  destruct n as [|p]; [discriminate|]. cbn [N.to_uint].
  pose proof (Stdlib.Numbers.DecimalPos.Unsigned.to_uint_nonnil p) as H.
  destruct (Pos.to_uint p); [contradiction|discriminate..].
Qed.

Lemma str_of_int_nonneg (z : Z) :
  (0 <= z)%Z -> str_of_int z = digits (N.to_uint (Z.to_N z)).
Proof.
  intros Hz. unfold str_of_int. destruct (Z.ltb_spec z 0); [lia|reflexivity].
Qed.

Lemma full_news_key_inj (i j : Z) :
  (0 <= i)%Z -> (0 <= j)%Z -> full_news_key i = full_news_key j -> i = j.
Proof.
  intros Hi Hj. unfold full_news_key. intros E.
  apply app_inv_head in E.
  rewrite !str_of_int_nonneg in E by assumption.
  apply digits_inj, Stdlib.Numbers.DecimalN.Unsigned.to_uint_inj in E. lia.
Qed.

(** The callback data of a news button: "full_news_" and decimal
    digits. *)
Lemma full_news_key_shape (idx : Z) :
  (0 <= idx)%Z ->
  exists ds,
    full_news_key idx = ustr "full_news_" ++ ds /\ ds <> [] /\
    forallb is_ascii_digit ds = true.
Proof.
  intros Hidx. exists (str_of_int idx). split; [reflexivity|].
  rewrite str_of_int_nonneg by exact Hidx.
  split; [apply digits_nonempty|apply digits_ascii].
Qed.

(** ** The loop over the news *)

Lemma reply_text_user_data (tg : Telegram) (text : pystr)
    (markup : option (pystr * pystr)) (c : Chat) :
  user_data (snd (reply_text tg text markup c)) = user_data c.
Proof.
  unfold reply_text. now destruct (reply tg (sent c) _).
Qed.

Lemma reply_text_works (tg : Telegram) (text : pystr)
    (markup : option (pystr * pystr)) (c : Chat) :
  telegram_works tg ->
  reply_text tg text markup c
  = (Ok tt, mk_chat (user_data c) (sent c ++ [mk_message text markup])).
Proof. intros [_ Hreply]. unfold reply_text. now rewrite Hreply. Qed.

Lemma news_loop_step (tg : Telegram) (idx : Z) (news : NewsItem)
    (rest : list NewsItem) (c : Chat) :
  news_loop tg idx (news :: rest) c
  = match reply_text tg (message_text (news_message idx news))
            (reply_markup (news_message idx news))
            (mk_chat (dict_set (full_news_key idx) (link news) (user_data c))
                     (sent c)) with
    | (Ok _, c') => news_loop tg (idx + 1) rest c'
    | (Raise e, c') => (Raise e, c')
    end.
Proof. reflexivity. Qed.

(** The loop writes the keys of its indices only, also when it is cut
    short by a failed send. *)
Lemma news_loop_frame (tg : Telegram) (news_list : list NewsItem) :
  forall (idx : Z) (c : Chat) (k : pystr),
    (forall j, (idx <= j < idx + Z.of_nat (length news_list))%Z ->
               k <> full_news_key j) ->
    dict_lookup k (user_data (snd (news_loop tg idx news_list c)))
    = dict_lookup k (user_data c).
Proof.
  induction news_list as [|news rest IH]; intros idx c k Hk;
    [reflexivity|].
  rewrite news_loop_step.
  pose proof (reply_text_user_data tg (message_text (news_message idx news))
                (reply_markup (news_message idx news))
                (mk_chat (dict_set (full_news_key idx) (link news)
                                   (user_data c)) (sent c))) as Hud.
  cbn [length] in Hk.
  destruct (reply_text tg _ _ _) as [[[]|e] c']; cbn [snd] in *.
  - rewrite IH by (intros j Hj; apply Hk; lia).
    rewrite Hud. cbn [user_data]. apply dict_lookup_set_other, Hk. lia.
  - rewrite Hud. cbn [user_data]. apply dict_lookup_set_other, Hk. lia.
Qed.

Lemma news_loop_works (tg : Telegram) (news_list : list NewsItem) :
  telegram_works tg ->
  forall (idx : Z) (c : Chat),
    fst (news_loop tg idx news_list c) = Ok tt /\
    sent (snd (news_loop tg idx news_list c))
    = sent c ++ map (fun p => news_message (fst p) (snd p))
                    (enumerate idx news_list).
Proof.
  intros Hworks. induction news_list as [|news rest IH]; intros idx c.
  - cbn. now rewrite app_nil_r.
  - rewrite news_loop_step, (reply_text_works _ _ _ _ Hworks).
    destruct (IH (idx + 1)%Z
                (mk_chat (dict_set (full_news_key idx) (link news)
                                   (user_data c))
                         (sent c ++ [news_message idx news]))) as [Hok Hsent].
    cbn [sent user_data] in *.
    assert (E : mk_message (message_text (news_message idx news))
                           (reply_markup (news_message idx news))
                = news_message idx news) by reflexivity.
    rewrite E. split; [exact Hok|].
    rewrite Hsent. cbn [enumerate map fst snd]. now rewrite <- app_assoc.
Qed.

Lemma news_loop_lookup (tg : Telegram) (news_list : list NewsItem) :
  telegram_works tg ->
  forall (idx : Z) (c : Chat) (i : nat) (news : NewsItem),
    (0 <= idx)%Z ->
    nth_error news_list i = Some news ->
    dict_lookup (full_news_key (idx + Z.of_nat i))
                (user_data (snd (news_loop tg idx news_list c)))
    = Some (link news).
Proof.
  intros Hworks. induction news_list as [|first rest IH];
    intros idx c i news Hidx Hnth; [now destruct i|].
  rewrite news_loop_step, (reply_text_works _ _ _ _ Hworks).
  destruct i as [|i]; cbn [nth_error] in Hnth.
  - injection Hnth as ->. rewrite Z.add_0_r.
    rewrite news_loop_frame.
    + cbn [user_data]. apply dict_lookup_set_same.
    + intros j Hj E. apply full_news_key_inj in E; lia.
  - replace (idx + Z.of_nat (S i))%Z with (idx + 1 + Z.of_nat i)%Z by lia.
    apply IH; [lia|exact Hnth].
Qed.

Lemma enumerate_nth {A} (l : list A) :
  forall (idx : Z) (i : nat) (x : A),
    nth_error l i = Some x ->
    nth_error (enumerate idx l) i = Some ((idx + Z.of_nat i)%Z, x).
Proof.
  induction l as [|y l IH]; intros idx i x Hnth; [now destruct i|].
  destruct i as [|i]; cbn [nth_error enumerate] in *.
  - injection Hnth as ->. now rewrite Z.add_0_r.
  - rewrite (IH (idx + 1)%Z i x Hnth). do 2 f_equal. lia.
Qed.

Lemma esteghlal_news_links (w : World) (limit : Z)
    (news_list : list NewsItem) (news : NewsItem) :
  get_esteghlal_news w limit = Ok news_list ->
  In news news_list -> link news <> [].
Proof.
  rewrite get_esteghlal_news_returns. intros [= <-] Hin.
  apply slice_to_incl, sorted_incl, collect_incl in Hin as [[]|Hin].
  now apply merged_valid in Hin.
Qed.

Lemma esteghlal_news_at_most (w : World) (limit : Z)
    (news_list : list NewsItem) :
  (0 <= limit)%Z ->
  get_esteghlal_news w limit = Ok news_list ->
  length news_list <= Z.to_nat limit.
Proof.
  intros Hl. rewrite get_esteghlal_news_returns. intros [= <-].
  rewrite slice_to_firstn by exact Hl. apply firstn_le_length.
Qed.

Lemma latest_news_handler_works (w : World) (tg : Telegram) (c : Chat)
    (news_list : list NewsItem) :
  telegram_works tg ->
  get_esteghlal_news w 5 = Ok news_list ->
  news_list <> [] ->
  latest_news_handler w tg c = news_loop tg 1 news_list c /\
  fst (news_loop tg 1 news_list c) = Ok tt.
Proof.
  intros Hworks Hnews Hne.
  destruct (news_loop_works tg news_list Hworks 1 c) as [Hok _].
  split; [|exact Hok].
  unfold latest_news_handler, h_bind, h_try, query_answer, h_lift.
  destruct Hworks as [-> _]. rewrite Hnews.
  destruct news_list as [|n l]; [contradiction|]. cbn [truthy negb].
  destruct (news_loop tg 1 (n :: l) c) as [[[]|e] c'] eqn:E;
    [reflexivity|]. cbn in Hok. discriminate.
Qed.

(** X20.  Round trip of the "full text" button.  When Telegram accepts
    every call, [latest_news_handler] sends one message for each item of
    [get_esteghlal_news(5)], in order.  The message of the item at
    position [i] (counted from one) carries the button [full_news_i], and
    pressing that button makes [full_news_handler] reply with the full
    article of that item's link. *)
Theorem full_news_button_opens_item (w : World) (web : Web) (tg : Telegram)
    (c : Chat) (news_list : list NewsItem) (i : nat) (news : NewsItem) :
  telegram_works tg ->
  get_esteghlal_news w 5 = Ok news_list ->
  nth_error news_list i = Some news ->
  let idx := (Z.of_nat i + 1)%Z in
  let c1 := snd (latest_news_handler w tg c) in
  fst (latest_news_handler w tg c) = Ok tt /\
  length (sent c1) = length (sent c) + length news_list /\
  nth_error (sent c1) (length (sent c) + i) = Some (news_message idx news) /\
  reply_markup (news_message idx news)
  = Some (READ_FULL_LABEL, full_news_key idx) /\
  exists article,
    fetch_full_article web (link news) = Ok article /\
    full_news_handler web tg (full_news_key idx) c1
    = (Ok tt, mk_chat (user_data c1)
                      (sent c1 ++ [mk_message article None])).
Proof.
  intros Hworks Hnews Hnth idx c1.
  assert (Hne : news_list <> []) by (intros ->; now destruct i).
  destruct (latest_news_handler_works w tg c news_list Hworks Hnews Hne)
    as [Hrun Hok].
  destruct (news_loop_works tg news_list Hworks 1 c) as [_ Hsent].
  subst c1. rewrite Hrun.
  split; [exact Hok|]. split.
  { rewrite Hsent, length_app, length_map.
    f_equal. clear. generalize 1%Z.
    induction news_list as [|n l IH]; intros z; [reflexivity|].
    cbn. now rewrite IH. }
  split.
  { rewrite Hsent, nth_error_app2 by lia.
    replace (length (sent c) + i - length (sent c)) with i by lia.
    rewrite nth_error_map, (enumerate_nth news_list 1 i news Hnth).
    cbn [option_map fst snd]. subst idx. do 2 f_equal. lia. }
  split; [reflexivity|].
  destruct (fetch_full_article_returns web (link news))
    as [article [Harticle _]].
  exists article. split; [exact Harticle|].
  assert (Hlookup : dict_lookup (full_news_key idx)
                      (user_data (snd (news_loop tg 1 news_list c)))
                    = Some (link news)).
  { subst idx. rewrite Z.add_comm.
    now apply news_loop_lookup; [|lia|]. }
  assert (Hlink : link news <> []).
  { apply (esteghlal_news_links w 5 news_list news Hnews).
    eapply nth_error_In, Hnth. }
  unfold full_news_handler, h_bind, h_try, query_answer, get_user_data,
    h_lift.
  destruct Hworks as [Hanswer Hreply]. rewrite Hanswer, Hlookup.
  cbn [falsy get]. destruct (link news) as [|ch rest] eqn:El;
    [contradiction|]. cbn [truthy negb].
  rewrite Harticle.
  unfold reply_text. now rewrite Hreply.
Qed.

Lemma full_news_button_opens_item_witness :
  let news := item_of Sample.world (ustr "varzesh3") Sample.derby in
  let c1 :=
    snd (latest_news_handler Sample.world SampleBot.telegram
           SampleBot.empty_chat) in
  fst (latest_news_handler Sample.world SampleBot.telegram
         SampleBot.empty_chat) = Ok tt /\
  length (sent c1) = length (sent SampleBot.empty_chat) + 2 /\
  nth_error (sent c1) (length (sent SampleBot.empty_chat) + 1)
  = Some (news_message (Z.of_nat 1 + 1) news) /\
  reply_markup (news_message (Z.of_nat 1 + 1) news)
  = Some (READ_FULL_LABEL, full_news_key (Z.of_nat 1 + 1)) /\
  exists article,
    fetch_full_article SampleBot.web (link news) = Ok article /\
    full_news_handler SampleBot.web SampleBot.telegram
      (full_news_key (Z.of_nat 1 + 1)) c1
    = (Ok tt, mk_chat (user_data c1)
                      (sent c1 ++ [mk_message article None])).
Proof.
  apply (full_news_button_opens_item Sample.world SampleBot.web
           SampleBot.telegram SampleBot.empty_chat
           [item_of Sample.world (ustr "metafootball") Sample.cup;
            item_of Sample.world (ustr "varzesh3") Sample.derby] 1).
  - split; reflexivity.
  - vm_compute. reflexivity.
  - reflexivity.
Defined.

(** X21.  [latest_news_handler] writes to [user_data] only under the keys
    [full_news_1] ... [full_news_n] of the [n] items it got ([n] is five at
    most); every other key keeps its value, among them the keys with a
    higher number left by an earlier call.  This holds also when a call to
    Telegram fails. *)
Theorem latest_news_keeps_other_keys (w : World) (tg : Telegram) (c : Chat) :
  exists news_list,
    get_esteghlal_news w 5 = Ok news_list /\
    length news_list <= 5 /\
    forall k,
      (forall j, (1 <= j <= Z.of_nat (length news_list))%Z ->
                 k <> full_news_key j) ->
      dict_lookup k (user_data (snd (latest_news_handler w tg c)))
      = dict_lookup k (user_data c).
Proof.
  destruct (get_esteghlal_news w 5) as [news_list|e] eqn:Hnews.
  2: { rewrite get_esteghlal_news_returns in Hnews. discriminate. }
  exists news_list. split; [reflexivity|].
  split; [apply (esteghlal_news_at_most w 5 news_list); [lia|exact Hnews]|].
  intros k Hk.
  unfold latest_news_handler, h_bind, h_try, query_answer, h_lift.
  destruct (answer tg); [reflexivity|]. rewrite Hnews.
  assert (Hbody : forall body : result unit * Chat,
    dict_lookup k (user_data (snd body)) = dict_lookup k (user_data c) ->
    dict_lookup k
      (user_data
         (snd (let (r, c') := body in
               match r with
               | Ok a => (Ok a, c')
               | Raise _ => reply_text tg NEWS_ERROR None c'
               end)))
    = dict_lookup k (user_data c)).
  { intros [[[]|e] c'] H; cbn [snd] in *; [exact H|].
    now rewrite reply_text_user_data. }
  destruct news_list as [|n l]; cbn [truthy negb].
  - apply Hbody. now rewrite reply_text_user_data.
  - apply Hbody. apply news_loop_frame. intros j Hj. apply Hk. lia.
Qed.

(** X22.  When no merged item mentions the keyword (for instance when
    every source failed) and Telegram accepts the calls,
    [latest_news_handler] sends the one message "no news available" and
    leaves [user_data] as it is. *)
Theorem no_news_message (w : World) (tg : Telegram) (c : Chat) :
  telegram_works tg ->
  filter (mentions_esteghlal w) (merged w) = [] ->
  latest_news_handler w tg c
  = (Ok tt, mk_chat (user_data c) (sent c ++ [mk_message NO_NEWS None])).
Proof.
  intros Hworks Hnone.
  unfold latest_news_handler, h_bind, h_try, query_answer, h_lift.
  destruct Hworks as [Hanswer Hreply]. rewrite Hanswer.
  rewrite get_esteghlal_news_returns.
  rewrite collect_first_matches by lia. rewrite Hnone.
  change (sorted_or_dropped (firstn (Z.to_nat 5) [])) with (@nil NewsItem).
  rewrite slice_to_nil. cbn [truthy negb].
  unfold reply_text. now rewrite Hreply.
Qed.

Lemma no_news_message_witness :
  latest_news_handler Sample.dead_world SampleBot.telegram
    SampleBot.empty_chat
  = (Ok tt, mk_chat (user_data SampleBot.empty_chat)
                    (sent SampleBot.empty_chat ++ [mk_message NO_NEWS None])).
Proof.
  apply (no_news_message Sample.dead_world SampleBot.telegram
           SampleBot.empty_chat).
  - split; reflexivity.
  - reflexivity.
Defined.

(** X27.  A date the feed parser could not read hides the news from the
    chat.  When the sort of the five first merged items that mention the
    keyword compares a [None], [get_esteghlal_news] returns the empty list
    and, Telegram accepting the calls, [latest_news_handler] sends the one
    message "no news available", although items mention the keyword. *)
Theorem unreadable_date_hides_news (w : World) (tg : Telegram) (c : Chat) :
  telegram_works tg ->
  comparable
    (firstn (Z.to_nat 5) (filter (mentions_esteghlal w) (merged w)))
  = false ->
  filter (mentions_esteghlal w) (merged w) <> [] /\
  get_esteghlal_news w 5 = Ok [] /\
  latest_news_handler w tg c
  = (Ok tt, mk_chat (user_data c) (sent c ++ [mk_message NO_NEWS None])).
Proof.
  intros Hworks Hnone.
  assert (Hret : get_esteghlal_news w 5 = Ok []).
  { rewrite get_esteghlal_news_returns.
    rewrite collect_first_matches by lia.
    unfold sorted_or_dropped. rewrite Hnone. now rewrite slice_to_nil. }
  split; [|split; [exact Hret|]].
  - intros Hnil. rewrite Hnil in Hnone. discriminate.
  - unfold latest_news_handler, h_bind, h_try, query_answer, h_lift.
    destruct Hworks as [Hanswer Hreply]. rewrite Hanswer, Hret.
    cbn [truthy negb]. unfold reply_text. now rewrite Hreply.
Qed.

Lemma unreadable_date_hides_news_witness :
  filter (mentions_esteghlal Sample.world_with_unreadable_date)
    (merged Sample.world_with_unreadable_date) <> [] /\
  get_esteghlal_news Sample.world_with_unreadable_date 5 = Ok [] /\
  latest_news_handler Sample.world_with_unreadable_date SampleBot.telegram
    SampleBot.empty_chat
  = (Ok tt, mk_chat (user_data SampleBot.empty_chat)
                    (sent SampleBot.empty_chat ++ [mk_message NO_NEWS None])).
Proof.
  apply (unreadable_date_hides_news Sample.world_with_unreadable_date
           SampleBot.telegram SampleBot.empty_chat).
  - split; reflexivity.
  - vm_compute. reflexivity.
Defined.

(** A message that Telegram accepts as to its form: a text that is not
    empty and, on a button, callback data made of "full_news_" and decimal
    digits, which the pattern of the full-text handler matches. *)
Lemma news_message_well_formed (idx : Z) (news : NewsItem) :
  (0 <= idx)%Z ->
  message_text (news_message idx news) <> [] /\
  exists ds,
    reply_markup (news_message idx news)
    = Some (READ_FULL_LABEL, ustr "full_news_" ++ ds) /\
    ds <> [] /\ forallb is_ascii_digit ds = true.
Proof.
  intros Hidx. split; [discriminate|].
  destruct (full_news_key_shape idx Hidx) as [ds [E [Hne Hds]]].
  exists ds. cbn [news_message reply_markup]. rewrite E. now split.
Qed.

Lemma reply_text_sent (tg : Telegram) (text : pystr)
    (markup : option (pystr * pystr)) (c : Chat) :
  sent (snd (reply_text tg text markup c)) = sent c \/
  sent (snd (reply_text tg text markup c))
  = sent c ++ [mk_message text markup].
Proof.
  unfold reply_text. destruct (reply tg (sent c) _); [now left|now right].
Qed.

Lemma news_loop_sent (tg : Telegram) (news_list : list NewsItem) :
  forall (idx : Z) (c : Chat),
    (0 <= idx)%Z ->
    exists new,
      sent (snd (news_loop tg idx news_list c)) = sent c ++ new /\
      Forall (fun m =>
                exists j news, (idx <= j)%Z /\ m = news_message j news) new.
Proof.
  induction news_list as [|news rest IH]; intros idx c Hidx.
  - exists []. cbn. now rewrite app_nil_r.
  - rewrite news_loop_step.
    set (c0 := mk_chat (dict_set (full_news_key idx) (link news)
                                 (user_data c)) (sent c)).
    pose proof (reply_text_sent tg (message_text (news_message idx news))
                  (reply_markup (news_message idx news)) c0) as Hs.
    destruct (reply_text tg _ _ c0) as [[[]|e] c'] eqn:E; cbn [snd] in *.
    + destruct (IH (idx + 1)%Z c' ltac:(lia)) as [new [Hnew Hall]].
      assert (Hshift : Forall (fun m => exists j n,
                         (idx <= j)%Z /\ m = news_message j n) new).
      { eapply Forall_impl; [|exact Hall].
        intros m [j [n [Hj ->]]]. exists j, n. split; [lia|reflexivity]. }
      destruct Hs as [Hs|Hs]; rewrite Hnew, Hs; cbn [sent c0].
      * exists new. now split.
      * exists (news_message idx news :: new). rewrite <- app_assoc.
        split; [reflexivity|]. constructor; [|exact Hshift].
        exists idx, news. split; [lia|reflexivity].
    + destruct Hs as [Hs|Hs]; rewrite Hs; cbn [sent c0].
      * exists []. now rewrite app_nil_r.
      * exists [news_message idx news]. split; [reflexivity|].
        constructor; [|constructor]. exists idx, news.
        split; [lia|reflexivity].
Qed.

(** X23.  Whatever the sources and Telegram do, every message
    [latest_news_handler] sends has a text that is not empty, and every
    button it sends has callback data made of "full_news_" and one or more
    decimal digits, the form the pattern of [full_news_handler] matches. *)
Theorem latest_news_messages_well_formed (w : World) (tg : Telegram)
    (c : Chat) :
  exists new,
    sent (snd (latest_news_handler w tg c)) = sent c ++ new /\
    forall m, In m new ->
      message_text m <> [] /\
      forall label data, reply_markup m = Some (label, data) ->
        exists ds, data = ustr "full_news_" ++ ds /\ ds <> [] /\
                   forallb is_ascii_digit ds = true.
Proof.
  assert (Hplain : forall text : pystr, text <> [] ->
    forall m, In m [mk_message text None] ->
      message_text m <> [] /\
      forall label data, reply_markup m = Some (label, data) ->
        exists ds, data = ustr "full_news_" ++ ds /\ ds <> [] /\
                   forallb is_ascii_digit ds = true).
  { intros text Hne m [<-|[]]. split; [exact Hne|]. discriminate. }
  assert (Hnews : forall new : list Message,
    Forall (fun m => exists j news, (1 <= j)%Z /\ m = news_message j news)
           new ->
    forall m, In m new ->
      message_text m <> [] /\
      forall label data, reply_markup m = Some (label, data) ->
        exists ds, data = ustr "full_news_" ++ ds /\ ds <> [] /\
                   forallb is_ascii_digit ds = true).
  { intros new Hall m Hm. rewrite Forall_forall in Hall.
    destruct (Hall m Hm) as [j [news [Hj ->]]].
    destruct (news_message_well_formed j news ltac:(lia))
      as [Htext [ds [E [Hne Hds]]]].
    split; [exact Htext|]. intros label data Hmk. rewrite E in Hmk.
    injection Hmk as _ <-. now exists ds. }
  unfold latest_news_handler, h_bind, h_try, query_answer, h_lift.
  destruct (answer tg).
  { exists []. cbn [snd]. rewrite app_nil_r. split; [reflexivity|].
    intros m []. }
  rewrite get_esteghlal_news_returns.
  set (news_list := slice_to 5 _).
  assert (Herror : forall (c' : Chat) (new : list Message),
    sent c' = sent c ++ new ->
    (forall m, In m new ->
       message_text m <> [] /\
       forall label data, reply_markup m = Some (label, data) ->
         exists ds, data = ustr "full_news_" ++ ds /\ ds <> [] /\
                    forallb is_ascii_digit ds = true) ->
    exists new',
      sent (snd (reply_text tg NEWS_ERROR None c')) = sent c ++ new' /\
      forall m, In m new' ->
        message_text m <> [] /\
        forall label data, reply_markup m = Some (label, data) ->
          exists ds, data = ustr "full_news_" ++ ds /\ ds <> [] /\
                     forallb is_ascii_digit ds = true).
  { intros c' new Hsent Hall.
    destruct (reply_text_sent tg NEWS_ERROR None c') as [Hs|Hs]; rewrite Hs.
    - exists new. now split.
    - exists (new ++ [mk_message NEWS_ERROR None]).
      rewrite Hsent, <- app_assoc. split; [reflexivity|].
      intros m Hm. apply in_app_or in Hm as [Hm|Hm]; [now apply Hall|].
      now apply (Hplain NEWS_ERROR). }
  destruct news_list as [|n l]; cbn [truthy negb].
  - pose proof (reply_text_sent tg NO_NEWS None c) as Hs.
    destruct (reply_text tg NO_NEWS None c) as [[[]|e] c'] eqn:E;
      cbn [snd] in *.
    + destruct Hs as [Hs|Hs]; rewrite Hs.
      * exists []. rewrite app_nil_r. split; [reflexivity|]. intros m [].
      * exists [mk_message NO_NEWS None]. split; [reflexivity|].
        now apply Hplain.
    + destruct Hs as [Hs|Hs].
      * apply (Herror c' []); [now rewrite Hs, app_nil_r|]. intros m [].
      * apply (Herror c' [mk_message NO_NEWS None] Hs). now apply Hplain.
  - destruct (news_loop_sent tg (n :: l) 1 c ltac:(lia))
      as [new [Hsent Hall]].
    destruct (news_loop tg 1 (n :: l) c) as [[[]|e] c'] eqn:E;
      cbn [snd] in *.
    + exists new. split; [exact Hsent|]. now apply Hnews.
    + apply (Herror c' new Hsent). now apply Hnews.
Qed.

(** X24.  Whatever the stored links, the web and Telegram do, every
    message [full_news_handler] sends has a text that is not empty and not
    longer than 3000 characters, and it sends two messages at most. *)
Theorem full_news_messages_bounded (web : Web) (tg : Telegram)
    (data : pystr) (c : Chat) :
  exists new,
    sent (snd (full_news_handler web tg data c)) = sent c ++ new /\
    length new <= 2 /\
    forall m, In m new ->
      message_text m <> [] /\ length (message_text m) <= 3000.
Proof.
  assert (Hfixed : forall text : pystr,
    text <> [] -> length text <= 3000 ->
    forall (c0 : Chat) (new : list Message),
      sent c0 = sent c ++ new -> length new <= 1 ->
      (forall m, In m new ->
         message_text m <> [] /\ length (message_text m) <= 3000) ->
      exists new',
        sent (snd (reply_text tg text None c0)) = sent c ++ new' /\
        length new' <= S (length new) /\
        forall m, In m new' ->
          message_text m <> [] /\ length (message_text m) <= 3000).
  { intros text Hne Hlen c0 new Hsent Hcount Hall.
    destruct (reply_text_sent tg text None c0) as [Hs|Hs]; rewrite Hs.
    - exists new. split; [exact Hsent|]. split; [lia|exact Hall].
    - exists (new ++ [mk_message text None]).
      rewrite Hsent, <- app_assoc. split; [reflexivity|].
      split; [rewrite length_app; cbn; lia|].
      intros m Hm. apply in_app_or in Hm as [Hm|[<-|[]]];
        [now apply Hall|now split]. }
  assert (Hstart : sent c = sent c ++ []) by now rewrite app_nil_r.
  assert (Hnone : forall m : Message, In m [] ->
            message_text m <> [] /\ length (message_text m) <= 3000)
    by (intros m []).
  unfold full_news_handler, h_bind, h_try, query_answer, get_user_data,
    h_lift.
  destruct (answer tg).
  { exists []. cbn [snd]. split; [exact Hstart|]. split; [cbn; lia|].
    exact Hnone. }
  assert (Hbody : forall (text : pystr),
    text <> [] -> length text <= 3000 ->
    exists new,
      sent (snd (let (r, c') := reply_text tg text None c in
                 match r with
                 | Ok a => (Ok a, c')
                 | Raise _ => reply_text tg FULL_TEXT_ERROR None c'
                 end)) = sent c ++ new /\
      length new <= 2 /\
      forall m, In m new ->
        message_text m <> [] /\ length (message_text m) <= 3000).
  { intros text Hne Hlen.
    destruct (Hfixed text Hne Hlen c [] Hstart ltac:(cbn; lia) Hnone)
      as [new [Hsent [Hcount Hall]]].
    destruct (reply_text tg text None c) as [[[]|e] c'] eqn:E;
      cbn [snd] in *.
    - exists new. split; [exact Hsent|]. split; [cbn in Hcount; lia|exact Hall].
    - destruct (Hfixed FULL_TEXT_ERROR ltac:(discriminate) ltac:(cbn; lia)
                  c' new Hsent ltac:(cbn in Hcount; lia) Hall)
        as [new' [Hsent' [Hcount' Hall']]].
      exists new'. split; [exact Hsent'|].
      split; [cbn in Hcount; lia|exact Hall']. }
  destruct (falsy (dict_lookup data (user_data c))).
  - apply Hbody; [discriminate|cbn; lia].
  - destruct (fetch_full_article_returns web
                (get (dict_lookup data (user_data c)) []))
      as [article [-> [Hne Hlen]]].
    now apply Hbody.
Qed.
